(** * Moodboard: the canvas interaction engine of [src/App.tsx]

    A shallow embedding of the board document ([src/types.ts]), of the pointer
    handlers of the [App] component ([src/App.tsx]) and of the reaction handler
    of [CanvasItemComp] ([src/components/CanvasItemComp.tsx]).

    Numbers.  A JavaScript [number] is modelled as a rational [Q]: every finite
    double is a rational, and [+], [-], [*], [/] are the exact operations, so a
    statement "within floating-point tolerance" is read as the exact identity.
    Equality of numbers is [Qeq] ([==]); [===] on numbers is [Qeq_bool].
    Division by zero is outside the model (Rocq's [x / 0] is [0], JavaScript's
    is an infinity or NaN): a theorem on a handler whose result depends on a
    quotient assumes a non-zero scale.

    React state.  The hooks of [App] ([state], [dragMode], [toolMode],
    [dragStart], [activeItemId], [movingChildIds], [tempConnection], ...) are
    the fields of one record [Editor]; a handler is a function on [Editor].
    A handler reads the render's [state] and updates [prev] in [setState]; the
    two are the same value when a handler runs on the latest render, which is
    what the model takes.  [Math.random] and the DOM enter as arguments.

    Further parts.  The connector geometry ([getRectIntersection], [getPath],
    the path given by its four points), the layering and zoom buttons, the
    to-do handlers of the item component, the browser persistence of
    [src/services/webStorage.ts] over a map for [localStorage], and the
    handlers that create, open, save and export a project on that path. *)

From Stdlib Require Import List String Bool ZArith QArith Qminmax Qround Qabs Lqa Lia.
Import ListNotations.

Local Open Scope Q_scope.

(** ** JavaScript primitives *)

Module JS.

(** [a < b] on numbers. *)
Definition ltb (a b : Q) : bool :=
  match a ?= b with Lt => true | _ => false end.

(** [a <= b] and [a >= b] on numbers. *)
Definition leb (a b : Q) : bool := Qle_bool a b.
Definition geb (a b : Q) : bool := Qle_bool b a.

(** [a || b] on numbers: [a] unless it is falsy (zero). *)
Definition or_num (a b : Q) : Q := if Qeq_bool a 0 then b else a.

(** Truthiness of a [string | null]: [null] and the empty string are falsy. *)
Definition truthy (s : option string) : bool :=
  match s with
  | Some s => negb (String.eqb s EmptyString)
  | None => false
  end.

(** [Math.min(...l)] and [Math.max(...l)] of a non-empty array [a :: l]. *)
Definition min_of (a : Q) (l : list Q) : Q := fold_left Qmin l a.
Definition max_of (a : Q) (l : list Q) : Q := fold_left Qmax l a.

(** [Array.prototype.includes] and [Set.prototype.has] on strings. *)
Definition includes (l : list string) (s : string) : bool :=
  existsb (String.eqb s) l.

End JS.

(** ** The board document ([src/types.ts]) *)

Inductive ItemType := text | image | todo | shape | drawing.

Inductive Urgency := low | medium | high.

Inductive ShapeType := rectangle | circle.

Record Position := mkPosition { pos_x : Q; pos_y : Q }.

Record TodoItem := mkTodoItem {
  todo_id : string;
  todo_text : string;
  todo_completed : bool;
  todo_urgency : Urgency
}.

Record DrawingPath := mkDrawingPath {
  points : list Position;
  path_color : string;
  strokeWidth : Q
}.

Record Reaction := mkReaction { emoji : string; count : Z }.

Record CanvasItem := mkCanvasItem {
  item_id : string;
  item_type : ItemType;
  item_x : Q;
  item_y : Q;
  width : Q;
  height : Q;
  content : option string;
  todos : option (list TodoItem);
  color : option string;
  textColor : option string;
  fontFamily : option string;
  fontWeight : option string;
  fontStyle : option string;
  opacity : option Q;
  shapeType : option ShapeType;
  drawingData : option (list DrawingPath);
  zIndex : Q;
  reactions : option (list Reaction)
}.

Record Connection := mkConnection {
  conn_id : string;
  fromId : string;
  toId : string;
  conn_color : string
}.

Record AppState := mkAppState {
  items : list CanvasItem;
  connections : list Connection;
  pan : Position;
  scale : Q;
  selectedIds : list string;
  selectionBox : option (Position * Position)
}.

Definition itemTypeEqb (a b : ItemType) : bool :=
  match a, b with
  | text, text | image, image | todo, todo | shape, shape | drawing, drawing => true
  | _, _ => false
  end.

(** [Partial<CanvasItem>]: every field optional; [{ ...item, ...updates }]. *)
Record PartialItem := mkPartialItem {
  u_id : option string;
  u_type : option ItemType;
  u_x : option Q;
  u_y : option Q;
  u_width : option Q;
  u_height : option Q;
  u_content : option (option string);
  u_todos : option (option (list TodoItem));
  u_color : option (option string);
  u_textColor : option (option string);
  u_fontFamily : option (option string);
  u_fontWeight : option (option string);
  u_fontStyle : option (option string);
  u_opacity : option (option Q);
  u_shapeType : option (option ShapeType);
  u_drawingData : option (option (list DrawingPath));
  u_zIndex : option Q;
  u_reactions : option (option (list Reaction))
}.

Definition noUpdates : PartialItem :=
  mkPartialItem None None None None None None None None None
                None None None None None None None None None.

Definition orElse {A} (o : option A) (d : A) : A :=
  match o with Some a => a | None => d end.

Definition spread (i : CanvasItem) (u : PartialItem) : CanvasItem :=
  mkCanvasItem
    (orElse (u_id u) (item_id i)) (orElse (u_type u) (item_type i))
    (orElse (u_x u) (item_x i)) (orElse (u_y u) (item_y i))
    (orElse (u_width u) (width i)) (orElse (u_height u) (height i))
    (orElse (u_content u) (content i)) (orElse (u_todos u) (todos i))
    (orElse (u_color u) (color i)) (orElse (u_textColor u) (textColor i))
    (orElse (u_fontFamily u) (fontFamily i)) (orElse (u_fontWeight u) (fontWeight i))
    (orElse (u_fontStyle u) (fontStyle i)) (orElse (u_opacity u) (opacity i))
    (orElse (u_shapeType u) (shapeType i)) (orElse (u_drawingData u) (drawingData i))
    (orElse (u_zIndex u) (zIndex i)) (orElse (u_reactions u) (reactions i)).

(** Record updates [{ ...item, f: v }] used by the handlers. *)
Definition set_xy (i : CanvasItem) (nx ny : Q) : CanvasItem :=
  mkCanvasItem (item_id i) (item_type i) nx ny (width i) (height i)
    (content i) (todos i) (color i) (textColor i) (fontFamily i) (fontWeight i)
    (fontStyle i) (opacity i) (shapeType i) (drawingData i) (zIndex i) (reactions i).

Definition set_size (i : CanvasItem) (w h : Q) : CanvasItem :=
  mkCanvasItem (item_id i) (item_type i) (item_x i) (item_y i) w h
    (content i) (todos i) (color i) (textColor i) (fontFamily i) (fontWeight i)
    (fontStyle i) (opacity i) (shapeType i) (drawingData i) (zIndex i) (reactions i).

Definition set_reactions (i : CanvasItem) (r : list Reaction) : CanvasItem :=
  mkCanvasItem (item_id i) (item_type i) (item_x i) (item_y i) (width i) (height i)
    (content i) (todos i) (color i) (textColor i) (fontFamily i) (fontWeight i)
    (fontStyle i) (opacity i) (shapeType i) (drawingData i) (zIndex i) (Some r).

Definition set_drawing (i : CanvasItem) (nx ny w h : Q) (d : list DrawingPath)
  : CanvasItem :=
  mkCanvasItem (item_id i) (item_type i) nx ny w h
    (content i) (todos i) (color i) (textColor i) (fontFamily i) (fontWeight i)
    (fontStyle i) (opacity i) (shapeType i) (Some d) (zIndex i) (reactions i).

Definition set_items (s : AppState) (l : list CanvasItem) : AppState :=
  mkAppState l (connections s) (pan s) (scale s) (selectedIds s) (selectionBox s).

Definition set_connections (s : AppState) (l : list Connection) : AppState :=
  mkAppState (items s) l (pan s) (scale s) (selectedIds s) (selectionBox s).

Definition set_pan (s : AppState) (p : Position) : AppState :=
  mkAppState (items s) (connections s) p (scale s) (selectedIds s) (selectionBox s).

Definition set_selectedIds (s : AppState) (l : list string) : AppState :=
  mkAppState (items s) (connections s) (pan s) (scale s) l (selectionBox s).

Definition set_selectionBox (s : AppState) (b : option (Position * Position))
  : AppState :=
  mkAppState (items s) (connections s) (pan s) (scale s) (selectedIds s) b.

Definition INITIAL_STATE : AppState :=
  mkAppState [] [] (mkPosition 0 0) 1 [] None.

Definition COLORS : list string :=
  ["#FF6B6B"; "#4ECDC4"; "#45B7D1"; "#96CEB4"; "#FFEEAD"]%string.

(** ** The hooks of the [App] component ([src/App.tsx], lines 107-125) *)

Inductive DragMode :=
  drag_none | drag_pan | drag_move | drag_resize | drag_connect | drag_draw
| drag_select.

Inductive ToolMode := tool_select | tool_hand | tool_pen.

(** The [type] argument of [handleItemMouseDown]: ['move' | 'resize' | 'connect']. *)
Inductive HandleType := on_move | on_resize | on_connect.

Inductive PickerType := pick_reaction | pick_sticker.

Record EmojiPicker := mkEmojiPicker {
  picker_type : PickerType;
  targetId : option string;
  picker_x : Q;
  picker_y : Q
}.

Record Editor := mkEditor {
  state : AppState;
  dragMode : DragMode;
  toolMode : ToolMode;
  dragStart : option Position;
  activeItemId : option string;
  movingChildIds : list string;
  tempConnection : option Position;
  drawingColor : string;
  emojiPicker : option EmojiPicker
}.

Definition dragModeEqb (a b : DragMode) : bool :=
  match a, b with
  | drag_none, drag_none | drag_pan, drag_pan | drag_move, drag_move
  | drag_resize, drag_resize | drag_connect, drag_connect
  | drag_draw, drag_draw | drag_select, drag_select => true
  | _, _ => false
  end.

Definition dragModeOf (t : HandleType) : DragMode :=
  match t with
  | on_move => drag_move
  | on_resize => drag_resize
  | on_connect => drag_connect
  end.

(** [setState(prev => f(prev))] and the other setters. *)
Definition setState (f : AppState -> AppState) (ed : Editor) : Editor :=
  mkEditor (f (state ed)) (dragMode ed) (toolMode ed) (dragStart ed)
    (activeItemId ed) (movingChildIds ed) (tempConnection ed) (drawingColor ed)
    (emojiPicker ed).

Definition setDragMode (m : DragMode) (ed : Editor) : Editor :=
  mkEditor (state ed) m (toolMode ed) (dragStart ed)
    (activeItemId ed) (movingChildIds ed) (tempConnection ed) (drawingColor ed)
    (emojiPicker ed).

Definition setToolMode (m : ToolMode) (ed : Editor) : Editor :=
  mkEditor (state ed) (dragMode ed) m (dragStart ed)
    (activeItemId ed) (movingChildIds ed) (tempConnection ed) (drawingColor ed)
    (emojiPicker ed).

Definition setDragStart (p : option Position) (ed : Editor) : Editor :=
  mkEditor (state ed) (dragMode ed) (toolMode ed) p
    (activeItemId ed) (movingChildIds ed) (tempConnection ed) (drawingColor ed)
    (emojiPicker ed).

Definition setActiveItemId (i : option string) (ed : Editor) : Editor :=
  mkEditor (state ed) (dragMode ed) (toolMode ed) (dragStart ed)
    i (movingChildIds ed) (tempConnection ed) (drawingColor ed)
    (emojiPicker ed).

Definition setMovingChildIds (l : list string) (ed : Editor) : Editor :=
  mkEditor (state ed) (dragMode ed) (toolMode ed) (dragStart ed)
    (activeItemId ed) l (tempConnection ed) (drawingColor ed)
    (emojiPicker ed).

Definition setTempConnection (p : option Position) (ed : Editor) : Editor :=
  mkEditor (state ed) (dragMode ed) (toolMode ed) (dragStart ed)
    (activeItemId ed) (movingChildIds ed) p (drawingColor ed)
    (emojiPicker ed).

Definition setEmojiPicker (p : option EmojiPicker) (ed : Editor) : Editor :=
  mkEditor (state ed) (dragMode ed) (toolMode ed) (dragStart ed)
    (activeItemId ed) (movingChildIds ed) (tempConnection ed) (drawingColor ed)
    p.

(** The editor after mounting: [useState]'s initial values. *)
Definition initialEditor : Editor :=
  mkEditor INITIAL_STATE drag_none tool_select None None [] None
    "#000000"%string None.

(** ** Events *)

(** A [React.MouseEvent] as the handlers read it.  [inEmojiPicker] is
    [e.target.closest('.emoji-picker')] being non-null; [onControl] is the
    target being an [INPUT], a [TEXTAREA] or inside a [button]. *)
Record MouseEvent := mkMouseEvent {
  clientX : Q;
  clientY : Q;
  button : Z;
  inEmojiPicker : bool;
  onControl : bool
}.

Record WheelEvent := mkWheelEvent {
  deltaY : Q;
  wheelX : Q;
  wheelY : Q
}.

(** The browser window: [window.innerWidth], [window.innerHeight]. *)
Record Window := mkWindow { innerWidth : Q; innerHeight : Q }.

(** ** Geometry: the two coordinate maps

    [screenToWorld] is the expression the handlers compute from a pointer
    position (lines 411-412, 451-452, 505-506, 625-626);
    [worldToScreen] is the canvas transform of line 1055,
    [translate(pan) scale(scale)] about the top-left origin. *)

Definition screenToWorld (p : Position) (s : AppState) : Position :=
  mkPosition ((pos_x p - pos_x (pan s)) / scale s)
             ((pos_y p - pos_y (pan s)) / scale s).

Definition worldToScreen (w : Position) (s : AppState) : Position :=
  mkPosition (pos_x w * scale s + pos_x (pan s))
             (pos_y w * scale s + pos_y (pan s)).

(** Two positions with equal coordinates. *)
Definition pos_eq (a b : Position) : Prop :=
  pos_x a == pos_x b /\ pos_y a == pos_y b.

(** ** Keyboard delete and the item's delete control *)

(** The key test of line 137. *)
Definition isDeleteKey (key : string) : bool :=
  (String.eqb key "Delete" || String.eqb key "Backspace")%string.

(** The update of lines 143-148. *)
Definition deleteSelection (prev : AppState) : AppState :=
  mkAppState
    (filter (fun i => negb (JS.includes (selectedIds prev) (item_id i))) (items prev))
    (filter (fun c => negb (JS.includes (selectedIds prev) (fromId c))
                      && negb (JS.includes (selectedIds prev) (toId c)))
            (connections prev))
    (pan prev) (scale prev) [] (selectionBox prev).

(** The guard of line 140: the focus is in an [INPUT] or a [TEXTAREA]. *)
Definition typing (activeTag : option string) : bool :=
  match activeTag with
  | Some tag => (String.eqb tag "INPUT" || String.eqb tag "TEXTAREA")%string
  | None => false
  end.

(** [handleKeyDown] (lines 135-156); [activeTag] is
    [document.activeElement?.tagName].  The save shortcut hands the document
    to the persistence layer and leaves the editor as it is. *)
Definition handleKeyDown (key : string) (activeTag : option string) (ed : Editor)
  : Editor :=
  if isDeleteKey key then
    if typing activeTag then ed
    else if (0 <? List.length (selectedIds (state ed)))%nat
         then setState deleteSelection ed else ed
  else ed.

(** The [onDelete] callback handed to every item (lines 1066-1072). *)
Definition onDelete (id : string) (ed : Editor) : Editor :=
  setState (fun prev =>
    mkAppState
      (filter (fun i => negb (String.eqb (item_id i) id)) (items prev))
      (filter (fun c => negb (String.eqb (fromId c) id)
                        && negb (String.eqb (toId c) id)) (connections prev))
      (pan prev) (scale prev) (selectedIds prev) (selectionBox prev)) ed.

(** [updateItem] (lines 699-704). *)
Definition updateItem (id : string) (updates : PartialItem) (ed : Editor) : Editor :=
  setState (fun prev =>
    set_items prev
      (map (fun i => if String.eqb (item_id i) id then spread i updates else i)
           (items prev))) ed.

(** ** Adding items *)

Definition numOfNat (n : nat) : Q := inject_Z (Z.of_nat n).

(** [Math.min(...items.map(i => i.zIndex))], guarded by [items.length > 0]. *)
Definition minZ (its : list CanvasItem) : Q :=
  match map zIndex its with
  | [] => 0
  | z :: zs => JS.min_of z zs
  end.

Definition maxZ (its : list CanvasItem) : Q :=
  match map zIndex its with
  | [] => 0
  | z :: zs => JS.max_of z zs
  end.

Definition defaultTodos : list TodoItem :=
  [ mkTodoItem "1" "Define goals" false high;
    mkTodoItem "2" "Gather inspiration" false low ]%string.

(** The item [addItem] builds (lines 274-307); [newId] is the string drawn
    from [Math.random]. *)
Definition newItemOf (win : Window) (newId : string) (type : ItemType)
    (extras : PartialItem) (s : AppState) : CanvasItem :=
  let centerX := (- pos_x (pan s) + innerWidth win / 2) / scale s in
  let centerY := (- pos_y (pan s) + innerHeight win / 2) / scale s in
  let z := if itemTypeEqb type shape then minZ (items s) - 1 else maxZ (items s) + 1 in
  let wide := itemTypeEqb type shape || itemTypeEqb type image in
  let newItem :=
    spread
      (mkCanvasItem newId type (centerX - 100) (centerY - 75)
         (if wide then 200 else 250) (if wide then 200 else 180)
         (Some ""%string) None
         (if itemTypeEqb type shape then Some "#e2e8f0"%string else None)
         None
         (if itemTypeEqb type text
          then Some "'Playfair Display', serif"%string else None)
         (Some "400"%string) (Some "normal"%string) (Some 1)
         (Some rectangle) None z None)
      extras in
  if itemTypeEqb type todo
  then spread newItem
         (mkPartialItem None None None None None None None (Some (Some defaultTodos))
            None None None None None None None None None None)
  else newItem.

Definition addItem (win : Window) (newId : string) (type : ItemType)
    (extras : PartialItem) (ed : Editor) : Editor :=
  let newItem := newItemOf win newId type extras (state ed) in
  setToolMode tool_select
    (setState (fun prev =>
       mkAppState (items prev ++ [newItem]) (connections prev) (pan prev)
         (scale prev) [item_id newItem] (selectionBox prev)) ed).

(** The extras of the toolbar's shape button, of an image upload, and of an
    emoji sticker (lines 816, 327, 369-374). *)
Definition shapeExtras : PartialItem :=
  mkPartialItem None None None None None None None None None None None None None
    None (Some (Some rectangle)) None None None.

Definition imageExtras (data : string) : PartialItem :=
  mkPartialItem None None None None None None (Some (Some data)) None None None
    None None None None None None None None.

Definition stickerExtras (e : string) : PartialItem :=
  mkPartialItem None None None None (Some 100) (Some 100) (Some (Some e)) None
    (Some (Some "#ffffff"%string)) None (Some (Some "'Inter', sans-serif"%string))
    None None None None None None None.

(** ** Reactions *)

Definition hasEmoji (e : string) (r : Reaction) : bool := String.eqb (emoji r) e.

(** The reactions of an item after one more [e] (lines 354-361). *)
Definition addReaction (e : string) (item : CanvasItem) : list Reaction :=
  let existing := orElse (reactions item) [] in
  match find (hasEmoji e) existing with
  | Some _ =>
      map (fun r => if hasEmoji e r then mkReaction (emoji r) (count r + 1) else r)
          existing
  | None => existing ++ [mkReaction e 1]
  end.

(** [handleEmojiSelect] (lines 345-380). *)
Definition handleEmojiSelect (win : Window) (newId : string) (e : string)
    (ed : Editor) : Editor :=
  match emojiPicker ed with
  | None => ed
  | Some picker =>
      let ed' :=
        match picker_type picker with
        | pick_reaction =>
            match targetId picker with
            | Some target =>
                if JS.truthy (Some target) then
                  setState (fun prev =>
                    set_items prev
                      (map (fun item =>
                              if String.eqb (item_id item) target
                              then set_reactions item (addReaction e item)
                              else item)
                           (items prev))) ed
                else ed
            | None => ed
            end
        | pick_sticker => addItem win newId text (stickerExtras e) ed
        end in
      setEmojiPicker None ed'
  end.

(** [onAddReaction] (lines 1073-1081): opens the picker on an item. *)
Definition onAddReaction (id : string) (e : MouseEvent) (ed : Editor) : Editor :=
  setEmojiPicker (Some (mkEmojiPicker pick_reaction (Some id) (clientX e) (clientY e))) ed.

(** [handleReactionClick] of the component rendering [item]
    ([src/components/CanvasItemComp.tsx], lines 68-84): the new reaction list
    it passes to [onUpdate], or [None] when it returns early. *)
Definition removeReaction (e : string) (item : CanvasItem) : option (list Reaction) :=
  let existing := orElse (reactions item) [] in
  match find (hasEmoji e) existing with
  | None => None
  | Some target =>
      if (1 <? count target)%Z
      then Some (map (fun r => if hasEmoji e r
                               then mkReaction (emoji r) (count r - 1) else r)
                     existing)
      else Some (filter (fun r => negb (hasEmoji e r)) existing)
  end.

Definition reactionsUpdate (r : list Reaction) : PartialItem :=
  mkPartialItem None None None None None None None None None None None None None
    None None None None (Some (Some r)).

Definition handleReactionClick (item : CanvasItem) (e : string) (ed : Editor)
  : Editor :=
  match removeReaction e item with
  | None => ed
  | Some newReactions => updateItem (item_id item) (reactionsUpdate newReactions) ed
  end.

(** ** Wheel zoom ([handleWheel], lines 384-402) *)

Section Wheel.

(** [Math.exp], as the double it returns. *)
Variable Math_exp : Q -> Q.

Definition newScaleOf (e : WheelEvent) (s : AppState) : Q :=
  let sensitivity := 1 # 1000 in
  let delta := - deltaY e in
  let zoomFactor := Math_exp (delta * sensitivity) in
  Qmin (Qmax (1 # 10) (scale s * zoomFactor)) 5.

Definition handleWheel (e : WheelEvent) (ed : Editor) : Editor :=
  let s := state ed in
  let newScale := newScaleOf e s in
  let mouseX := wheelX e in
  let mouseY := wheelY e in
  let newPanX := mouseX - ((mouseX - pos_x (pan s)) / scale s) * newScale in
  let newPanY := mouseY - ((mouseY - pos_y (pan s)) / scale s) * newScale in
  setState (fun prev =>
    mkAppState (items prev) (connections prev) (mkPosition newPanX newPanY)
      newScale (selectedIds prev) (selectionBox prev)) ed.

End Wheel.

(** ** Pointer-down *)

(** The drawing item a pen pointer-down creates (lines 414-427). *)
Definition newDrawing (newId : string) (startX startY : Q) (ed : Editor)
  : CanvasItem :=
  mkCanvasItem newId drawing startX startY 0 0 None None None None None None
    None None None
    (Some [mkDrawingPath [mkPosition 0 0] (drawingColor ed) 3])
    (numOfNat (List.length (items (state ed))) + 1) None.

(** [handleMouseDown] (lines 404-461). *)
Definition handleMouseDown (newId : string) (e : MouseEvent) (ed : Editor)
  : Editor :=
  let ed :=
    match emojiPicker ed with
    | Some _ => if negb (inEmojiPicker e) then setEmojiPicker None ed else ed
    | None => ed
    end in
  let s := state ed in
  match toolMode ed with
  | tool_pen =>
      let startX := (clientX e - pos_x (pan s)) / scale s in
      let startY := (clientY e - pos_y (pan s)) / scale s in
      let newItem := newDrawing newId startX startY ed in
      setDragStart (Some (mkPosition startX startY))
        (setState (fun prev =>
           mkAppState (items prev ++ [newItem]) (connections prev) (pan prev)
             (scale prev) [item_id newItem] (selectionBox prev))
           (setActiveItemId (Some (item_id newItem))
              (setDragMode drag_draw ed)))
  | tm =>
      if (match tm with tool_hand => true | _ => false end) || (button e =? 1)%Z
      then setDragStart (Some (mkPosition (clientX e) (clientY e)))
             (setDragMode drag_pan ed)
      else if (button e =? 0)%Z then
        if onControl e then ed
        else
          let startPos := mkPosition ((clientX e - pos_x (pan s)) / scale s)
                                     ((clientY e - pos_y (pan s)) / scale s) in
          setState (fun prev =>
              mkAppState (items prev) (connections prev) (pan prev) (scale prev)
                [] (Some (startPos, startPos)))
            (setDragStart (Some (mkPosition (pos_x startPos) (pos_y startPos)))
               (setDragMode drag_select ed))
      else ed
  end.

(** The containment test of lines 483-488: [other] lies inside [movedItem]. *)
Definition containedIn (id : string) (movedItem other : CanvasItem) : bool :=
  negb (String.eqb (item_id other) id)
  && JS.geb (item_x other) (item_x movedItem)
  && JS.leb (item_x other + width other) (item_x movedItem + width movedItem)
  && JS.geb (item_y other) (item_y movedItem)
  && JS.leb (item_y other + height other) (item_y movedItem + height movedItem).

(** The snapshot of lines 478-492: the ids of the items inside the moved shape. *)
Definition childrenOf (id : string) (type : HandleType) (its : list CanvasItem)
  : list string :=
  match type, find (fun i => String.eqb (item_id i) id) its with
  | on_move, Some movedItem =>
      if itemTypeEqb (item_type movedItem) shape
      then map item_id (filter (containedIn id movedItem) its)
      else []
  | _, _ => []
  end.

(** [handleItemMouseDown] (lines 463-499). *)
Definition handleItemMouseDown (e : MouseEvent) (id : string) (type : HandleType)
    (ed : Editor) : Editor :=
  match toolMode ed with
  | tool_pen | tool_hand => ed
  | tool_select =>
      let s := state ed in
      let ed1 :=
        setDragMode (dragModeOf type)
          (setDragStart (Some (mkPosition (clientX e) (clientY e)))
             (setActiveItemId (Some id) ed)) in
      let ed2 :=
        match type with
        | on_connect =>
            setTempConnection
              (Some (mkPosition ((clientX e - pos_x (pan s)) / scale s)
                                ((clientY e - pos_y (pan s)) / scale s))) ed1
        | _ => ed1
        end in
      setState (fun prev =>
          set_selectedIds prev
            (if JS.includes (selectedIds prev) id then selectedIds prev else [id]))
        (setMovingChildIds (childrenOf id type (items s)) ed2)
  end.

(** ** Pointer-move ([handleMouseMove], lines 501-621) *)

Record Bounds := mkBounds { minX : Q; minY : Q; maxX : Q; maxY : Q }.

(** One round of the [forEach] of lines 519-524. *)
Definition growBounds (b : Bounds) (p : Position) : Bounds :=
  mkBounds (if JS.ltb (pos_x p) (minX b) then pos_x p else minX b)
           (if JS.ltb (pos_y p) (minY b) then pos_y p else minY b)
           (if JS.ltb (maxX b) (pos_x p) then pos_x p else maxX b)
           (if JS.ltb (maxY b) (pos_y p) then pos_y p else maxY b).

(** [l[n] = v] on a copy of the array, for an index within it. *)
Fixpoint setNth {A} (n : nat) (v : A) (l : list A) : list A :=
  match l, n with
  | [], _ => []
  | _ :: r, O => v :: r
  | a :: r, S n => a :: setNth n v r
  end.

(** The point append and origin reflow of lines 515-544 on the active
    drawing item, [path] being its last path. *)
Definition reflow (mouseX mouseY : Q) (item : CanvasItem)
    (data : list DrawingPath) (pathIdx : nat) (path : DrawingPath) : CanvasItem :=
  let newPoint := mkPosition (mouseX - item_x item) (mouseY - item_y item) in
  let newPoints := points path ++ [newPoint] in
  let b := fold_left growBounds newPoints (mkBounds 0 0 (width item) (height item)) in
  let shiftX := if JS.ltb (minX b) 0 then minX b else 0 in
  let shiftY := if JS.ltb (minY b) 0 then minY b else 0 in
  let adjustedPoints :=
    map (fun p => mkPosition (pos_x p - shiftX) (pos_y p - shiftY)) newPoints in
  let newDrawingData :=
    setNth pathIdx (mkDrawingPath adjustedPoints (path_color path) (strokeWidth path))
           data in
  set_drawing item (item_x item + shiftX) (item_y item + shiftY)
    (JS.or_num (maxX b - minX b) 1) (JS.or_num (maxY b - minY b) 1)
    newDrawingData.

(** The callback of the [map] of lines 510-545.  [None] is the [TypeError] of
    reading [path.points] when [drawingData] is an empty array. *)
Definition drawItem (mouseX mouseY : Q) (active : string) (item : CanvasItem)
  : option CanvasItem :=
  if negb (String.eqb (item_id item) active) then Some item
  else match drawingData item with
       | None => Some item
       | Some data =>
           let pathIdx := (List.length data - 1)%nat in
           match nth_error data pathIdx with
           | None => None
           | Some path => Some (reflow mouseX mouseY item data pathIdx path)
           end
       end.

(** [map] with a callback that may throw. *)
Fixpoint mapThrow {A B} (f : A -> option B) (l : list A) : option (list B) :=
  match l with
  | [] => Some []
  | a :: r =>
      match f a with
      | None => None
      | Some b =>
          match mapThrow f r with
          | None => None
          | Some bs => Some (b :: bs)
          end
      end
  end.

(** The rubber-band selection of lines 556-575. *)
Definition selectStep (dragStart currentPos : Position) (prev : AppState)
  : AppState :=
  let x1 := Qmin (pos_x dragStart) (pos_x currentPos) in
  let y1 := Qmin (pos_y dragStart) (pos_y currentPos) in
  let x2 := Qmax (pos_x dragStart) (pos_x currentPos) in
  let y2 := Qmax (pos_y dragStart) (pos_y currentPos) in
  let selected :=
    map item_id
      (filter (fun item =>
                 JS.geb (item_x item + width item / 2) x1
                 && JS.leb (item_x item + width item / 2) x2
                 && JS.geb (item_y item + height item / 2) y1
                 && JS.leb (item_y item + height item / 2) y2)
              (items prev)) in
  mkAppState (items prev) (connections prev) (pan prev) (scale prev) selected
    (Some (dragStart, currentPos)).

(** The move step of lines 590-602. *)
Definition moveStep (active : string) (children : list string)
    (scaledDx scaledDy : Q) (prev : AppState) : AppState :=
  set_items prev
    (map (fun item =>
            if String.eqb (item_id item) active || JS.includes children (item_id item)
            then set_xy item (item_x item + scaledDx) (item_y item + scaledDy)
            else item)
         (items prev)).

(** The resize step of lines 604-614. *)
Definition resizeStep (active : string) (scaledDx scaledDy : Q) (prev : AppState)
  : AppState :=
  set_items prev
    (map (fun item =>
            if String.eqb (item_id item) active
            then set_size item (Qmax 50 (width item + scaledDx))
                               (Qmax 50 (height item + scaledDy))
            else item)
         (items prev)).

(** The branches after the draw branch (lines 550-620); none of them throws. *)
Definition dragStep (e : MouseEvent) (ed : Editor) : Editor :=
  let s := state ed in
  match dragStart ed with
  | None => ed
  | Some start =>
      if dragModeEqb (dragMode ed) drag_select then
        let currentPos := mkPosition ((clientX e - pos_x (pan s)) / scale s)
                                     ((clientY e - pos_y (pan s)) / scale s) in
        setState (selectStep start currentPos) ed
      else
        let dx := clientX e - pos_x start in
        let dy := clientY e - pos_y start in
        let here := Some (mkPosition (clientX e) (clientY e)) in
        match dragMode ed, activeItemId ed with
        | drag_pan, _ =>
            setDragStart here
              (setState (fun prev =>
                 set_pan prev (mkPosition (pos_x (pan prev) + dx)
                                          (pos_y (pan prev) + dy))) ed)
        | drag_move, Some active =>
            if JS.truthy (Some active)
            then setDragStart here
                   (setState (moveStep active (movingChildIds ed)
                                (dx / scale s) (dy / scale s)) ed)
            else ed
        | drag_resize, Some active =>
            if JS.truthy (Some active)
            then setDragStart here
                   (setState (resizeStep active (dx / scale s) (dy / scale s)) ed)
            else ed
        | drag_connect, _ =>
            setTempConnection
              (Some (mkPosition ((clientX e - pos_x (pan s)) / scale s)
                                ((clientY e - pos_y (pan s)) / scale s))) ed
        | _, _ => ed
        end
  end.

Definition handleMouseMove (e : MouseEvent) (ed : Editor) : option Editor :=
  let s := state ed in
  match dragMode ed, activeItemId ed, dragStart ed with
  | drag_none, _, _ => Some ed
  | drag_draw, Some active, Some _ =>
      if JS.truthy (Some active) then
        let mouseX := (clientX e - pos_x (pan s)) / scale s in
        let mouseY := (clientY e - pos_y (pan s)) / scale s in
        match mapThrow (drawItem mouseX mouseY active) (items s) with
        | None => None
        | Some its => Some (setState (fun prev => set_items prev its) ed)
        end
      else Some (dragStep e ed)
  | _, _, _ => Some (dragStep e ed)
  end.

(** A run of pointer-moves, stopping at the first one that throws. *)
Fixpoint moves (es : list MouseEvent) (ed : Editor) : option Editor :=
  match es with
  | [] => Some ed
  | e :: r =>
      match handleMouseMove e ed with
      | None => None
      | Some ed' => moves r ed'
      end
  end.

(** ** Pointer-up ([handleMouseUp], lines 623-652) *)

(** The hit test of lines 629-633. *)
Definition hit (active : string) (mouseX mouseY : Q) (item : CanvasItem) : bool :=
  negb (String.eqb (item_id item) active)
  && JS.geb mouseX (item_x item) && JS.leb mouseX (item_x item + width item)
  && JS.geb mouseY (item_y item) && JS.leb mouseY (item_y item + height item).

(** [COLORS[Math.floor(r * COLORS.length)]] for [r] drawn by [Math.random],
    [0 <= r < 1]; the default stands for [undefined], which such an [r] never
    reaches. *)
Definition pickColor (r : Q) : string :=
  nth (Z.to_nat (Qfloor (r * numOfNat (List.length COLORS)))) COLORS ""%string.

(** The commit of a connect gesture: [connId] and [r] come from [Math.random]. *)
Definition connectUp (connId : string) (r : Q) (e : MouseEvent) (ed : Editor)
  : Editor :=
  let s := state ed in
  match dragMode ed, activeItemId ed with
  | drag_connect, Some active =>
      if JS.truthy (Some active) then
        let mouseX := (clientX e - pos_x (pan s)) / scale s in
        let mouseY := (clientY e - pos_y (pan s)) / scale s in
        match find (hit active mouseX mouseY) (items s) with
        | Some targetItem =>
            let newConnection :=
              mkConnection connId active (item_id targetItem) (pickColor r) in
            setState (fun prev =>
              set_connections prev (connections prev ++ [newConnection])) ed
        | None => ed
        end
      else ed
  | _, _ => ed
  end.

Definition handleMouseUp (connId : string) (r : Q) (e : MouseEvent) (ed : Editor)
  : Editor :=
  setState (fun prev => set_selectionBox prev None)
    (setMovingChildIds []
       (setTempConnection None
          (setActiveItemId None
             (setDragStart None
                (setDragMode drag_none (connectUp connId r e ed)))))).

(** ** AI-inserted text items (lines 715-729) *)

(** One idea returned by the generator, with the id and the two offsets
    [Math.random] draws for it. *)
Record Idea := mkIdea {
  idea_id : string;
  idea_text : string;
  rand_x : Q;
  rand_y : Q
}.

Fixpoint ideaItems (centerX centerY : Q) (len : nat) (idx : nat) (ideas : list Idea)
  : list CanvasItem :=
  match ideas with
  | [] => []
  | i :: r =>
      mkCanvasItem (idea_id i) text
        (centerX + (rand_x i * 400 - 200)) (centerY + (rand_y i * 400 - 200))
        200 150 (Some (idea_text i)) None None (Some "#1f2937"%string) None None
        None None None None (numOfNat len + numOfNat idx + 1) None
      :: ideaItems centerX centerY len (S idx) r
  end.

Definition insertIdeas (win : Window) (ideas : list Idea) (ed : Editor) : Editor :=
  let s := state ed in
  let centerX := (- pos_x (pan s) + innerWidth win / 2) / scale s in
  let centerY := (- pos_y (pan s) + innerHeight win / 2) / scale s in
  let newItems := ideaItems centerX centerY (List.length (items s)) 0 ideas in
  setState (fun prev => set_items prev (items prev ++ newItems)) ed.

(** * Vocabulary of the statements *)

(** ** Deleting an item *)

(** [deletes X ed ed']: [ed'] is [ed] after the item [X] was deleted, by its
    delete control, or by the keyboard while [X] is selected and the focus is
    not in a text field. *)
Inductive deletes (X : string) (ed : Editor) : Editor -> Prop :=
| delete_by_control : deletes X ed (onDelete X ed)
| delete_by_key (key : string) (activeTag : option string) :
    isDeleteKey key = true ->
    typing activeTag = false ->
    In X (selectedIds (state ed)) ->
    deletes X ed (handleKeyDown key activeTag ed).

Definition references (c : Connection) (X : string) : Prop :=
  fromId c = X \/ toId c = X.

(** No connection dangles: both ends of every connection are items. *)
Definition wellConnected (s : AppState) : Prop :=
  forall c, In c (connections s) ->
    In (fromId c) (map item_id (items s)) /\ In (toId c) (map item_id (items s)).

(** The pointer position of an event. *)
Definition pointer (e : MouseEvent) : Position :=
  mkPosition (clientX e) (clientY e).

Definition wheelPointer (e : WheelEvent) : Position :=
  mkPosition (wheelX e) (wheelY e).

(** ** Gestures *)

(** A resize gesture on the item [id] is in progress. *)
Definition resizing (id : string) (ed : Editor) : Prop :=
  dragMode ed = drag_resize /\ activeItemId ed = Some id
  /\ id <> ""%string /\ dragStart ed <> None.

(** [i'] is [i] but for its width and height. *)
Definition resized (i i' : CanvasItem) : Prop :=
  i' = set_size i (width i') (height i').

(** The minimum size of line 610. *)
Definition floored (i : CanvasItem) : Prop := 50 <= width i /\ 50 <= height i.

(** The point [p] lies in the axis-aligned bounding box of [i]. *)
Definition inBox (p : Position) (i : CanvasItem) : Prop :=
  (item_x i <= pos_x p /\ pos_x p <= item_x i + width i)
  /\ (item_y i <= pos_y p /\ pos_y p <= item_y i + height i).

(** [i] can end a connection dragged from [src] and released at [p]. *)
Definition isTarget (src : string) (p : Position) (i : CanvasItem) : Prop :=
  item_id i <> src /\ inBox p i.

(** [t] is the first target among [its], in the order of the array. *)
Definition firstTarget (src : string) (p : Position) (its : list CanvasItem)
    (t : CanvasItem) : Prop :=
  exists before after,
    its = before ++ t :: after
    /\ isTarget src p t
    /\ forall i, In i before -> ~ isTarget src p i.

(** A connect gesture from the item [src] is in progress. *)
Definition connecting (src : string) (ed : Editor) : Prop :=
  dragMode ed = drag_connect /\ activeItemId ed = Some src
  /\ src <> ""%string /\ dragStart ed <> None.

(** ** Reactions of one item *)

(** [item.reactions || []]. *)
Definition reactionsOf (item : CanvasItem) : list Reaction :=
  orElse (reactions item) [].

(** The item after [handleEmojiSelect] added [e] to it (line 362). *)
Definition reactAdd (e : string) (item : CanvasItem) : CanvasItem :=
  set_reactions item (addReaction e item).

(** The item after a click on its badge [e]: [handleReactionClick], then the
    [{ ...i, ...updates }] of [updateItem]. *)
Definition reactRemove (e : string) (item : CanvasItem) : CanvasItem :=
  match removeReaction e item with
  | None => item
  | Some newReactions => spread item (reactionsUpdate newReactions)
  end.

(** The reaction entries of [item] for the emoji [e]. *)
Definition entries (e : string) (item : CanvasItem) : list Reaction :=
  filter (hasEmoji e) (reactionsOf item).

(** Every reaction entry of [item] has a count of at least 1. *)
Definition countsPositive (item : CanvasItem) : Prop :=
  Forall (fun r => (1 <= count r)%Z) (reactionsOf item).

(** No entry of [l] is for the emoji [e]. *)
Definition without (e : string) (l : list Reaction) : Prop :=
  Forall (fun r => hasEmoji e r = false) l.

(** The bounding box of [other] lies within the bounding box of [S]. *)
Definition inside (S other : CanvasItem) : Prop :=
  item_x S <= item_x other
  /\ item_x other + width other <= item_x S + width S
  /\ item_y S <= item_y other
  /\ item_y other + height other <= item_y S + height S.

(** [i] belongs to the group moved with the shape [S]: it is [S], or its box
    lies within the box of [S]. *)
Definition inGroup (S i : CanvasItem) : Prop :=
  item_id i = item_id S \/ inside S i.

(** The world-space deltas of a run of pointer-moves that started at the
    screen point [start], under the scale [sc]: each move is measured from
    the previous pointer position. *)
Fixpoint deltas (sc : Q) (start : Position) (es : list MouseEvent)
  : list (Q * Q) :=
  match es with
  | [] => []
  | e :: r =>
      ((clientX e - pos_x start) / sc, (clientY e - pos_y start) / sc)
      :: deltas sc (pointer e) r
  end.

(** [i] translated by each delta of [ds] in turn. *)
Definition translate (ds : list (Q * Q)) (i : CanvasItem) : CanvasItem :=
  fold_left (fun it d => set_xy it (item_x it + fst d) (item_y it + snd d)) ds i.

(** A move gesture on the item [sid] with the snapshot [ch] is in progress,
    the last pointer position being [start]. *)
Definition moving (sid : string) (ch : list string) (start : Position)
    (ed : Editor) : Prop :=
  dragMode ed = drag_move /\ activeItemId ed = Some sid
  /\ sid <> ""%string /\ movingChildIds ed = ch /\ dragStart ed = Some start.

(** The test of line 596 on an item id. *)
Definition movesAlong (sid : string) (ch : list string) (id : string) : bool :=
  String.eqb id sid || JS.includes ch id.

(** ** Drawing *)

Definition nonNegative (p : Position) : Prop := 0 <= pos_x p /\ 0 <= pos_y p.

(** All the stored points of an item, over all its paths. *)
Definition strokePoints (it : CanvasItem) : list Position :=
  flat_map points (orElse (drawingData it) []).

(** The negative part of an excursion: [v] when it is below zero, else 0. *)
Definition negPart (v : Q) : Q := if JS.ltb v 0 then v else 0.

(** The drawing item [it] holds one path, of non-negative points. *)
Definition tidyStroke (it : CanvasItem) : Prop :=
  exists path, drawingData it = Some [path] /\ Forall nonNegative (points path).

(** A draw gesture on the item [it], the last of the array, is in progress. *)
Definition drawingOn (before : list CanvasItem) (pn : Position) (sc : Q)
    (it : CanvasItem) (ed : Editor) : Prop :=
  dragMode ed = drag_draw /\ activeItemId ed = Some (item_id it)
  /\ dragStart ed <> None
  /\ items (state ed) = before ++ [it]
  /\ pan (state ed) = pn /\ scale (state ed) = sc.

(** The toolbar's pen button (line 833). *)
Definition togglePen (ed : Editor) : Editor :=
  setState (fun s => set_selectedIds s [])
    (setToolMode (match toolMode ed with tool_pen => tool_select | _ => tool_pen end)
       ed).

(** ** Stacking order *)

(** [z] lies strictly above, or strictly below, every item of [its]. *)
Definition aboveAll (z : Q) (its : list CanvasItem) : Prop :=
  forall i, In i its -> zIndex i < z.

Definition belowAll (z : Q) (its : list CanvasItem) : Prop :=
  forall i, In i its -> z < zIndex i.

(** * A sample board *)

Definition plainItem (id : string) (type : ItemType) (x y w h z : Q) : CanvasItem :=
  mkCanvasItem id type x y w h None None None None None None None None None None
    z None.

Definition sampleItems : list CanvasItem :=
  [ plainItem "s" shape 0 0 300 300 (-1);
    plainItem "a" text 50 50 100 100 1;
    plainItem "b" todo 400 0 250 180 2 ]%string.

Definition sampleConnections : list Connection :=
  [ mkConnection "c1" "a" "b" "#FF6B6B";
    mkConnection "c2" "s" "b" "#4ECDC4" ]%string.

Definition sampleState : AppState :=
  mkAppState sampleItems sampleConnections (mkPosition 10 20) 2 ["a"%string] None.

Definition sampleEditor : Editor :=
  mkEditor sampleState drag_none tool_select None None [] None
    "#000000"%string None.

Definition sampleWindow : Window := mkWindow 1280 720.

Definition click (x y : Q) : MouseEvent := mkMouseEvent x y 0 false false.

(** Three notes added from the toolbar, the first two deleted, then the pen
    chosen: one note of zIndex 3 is left on the board. *)
Definition threeNotes : Editor :=
  addItem sampleWindow "n3" text noUpdates
    (addItem sampleWindow "n2" text noUpdates
       (addItem sampleWindow "n1" text noUpdates initialEditor)).

Definition oneNoteLeft : Editor := onDelete "n2" (onDelete "n1" threeNotes).

Definition penReady : Editor := togglePen oneNoteLeft.

(** A pen on an empty board, and the stroke of the spec's scenario: down at
    the screen point (100, 100), then moves to (90, 105) and (105, 80), that
    is the excursions (-10, 5) and (5, -20) under pan (0, 0) and scale 1. *)
Definition emptyPen : Editor := togglePen initialEditor.

Definition strokeMoves : list MouseEvent := [click 90 105; click 105 80].

(** The sample board while the item ["a"] is being resized. *)
Definition resizingA : Editor :=
  handleItemMouseDown (click 300 300) "a" on_resize sampleEditor.

Definition sampleZoom : Q -> Q := fun _ => 11 # 10.

(** * The connector geometry ([src/App.tsx], lines 45-88 and 656-670) *)

(** The [rect] argument of [getRectIntersection]; its callers pass an item. *)
Record Rect := mkRect {
  rect_x : Q;
  rect_y : Q;
  rect_width : Q;
  rect_height : Q
}.

Definition rectOf (i : CanvasItem) : Rect :=
  mkRect (item_x i) (item_y i) (width i) (height i).

(** [if (cand < t) t = cand], [t] starting at [Infinity] ([None]). *)
Definition lower (t : option Q) (cand : Q) : option Q :=
  match t with
  | None => Some cand
  | Some t0 => if JS.ltb cand t0 then Some cand else Some t0
  end.

(** The search for the hit distance [t] (lines 59-80), [dx], [dy] being the
    direction and [w], [h] the half-sizes. *)
Definition hitDistance (dx dy w h : Q) : option Q :=
  let t : option Q := None in
  let t :=
    if negb (Qeq_bool dx 0) then
      let tx := (if JS.ltb 0 dx then w else - w) / dx in
      if JS.geb tx 0 then
        let y_at_edge := tx * dy in
        if JS.leb (Qabs y_at_edge) h then Some tx else t
      else t
    else t in
  if negb (Qeq_bool dy 0) then
    let ty := (if JS.ltb 0 dy then h else - h) / dy in
    if JS.geb ty 0 then
      let x_at_edge := ty * dx in
      if JS.leb (Qabs x_at_edge) w then lower t ty else t
    else t
  else t.

(** [getRectIntersection] (lines 45-88). *)
Definition getRectIntersection (center target : Position) (rect : Rect)
  : Position :=
  let dx := pos_x target - pos_x center in
  let dy := pos_y target - pos_y center in
  let w := rect_width rect / 2 in
  let h := rect_height rect / 2 in
  if Qeq_bool dx 0 && Qeq_bool dy 0 then center
  else
    match hitDistance dx dy w h with
    | None => center
    | Some t =>
        mkPosition (pos_x center + t * dx) (pos_y center + t * dy)
    end.

(** The path [getPath] draws, [M start C control1, control2, end], as its four
    points; [None] is the empty string of line 659. *)
Record Curve := mkCurve {
  curve_start : Position;
  control1 : Position;
  control2 : Position;
  curve_end : Position
}.

Definition centerOf (i : CanvasItem) : Position :=
  mkPosition (item_x i + width i / 2) (item_y i + height i / 2).

(** [getPath] (lines 656-670). *)
Definition getPath (conn : Connection) (s : AppState) : option Curve :=
  match find (fun i => String.eqb (item_id i) (fromId conn)) (items s),
        find (fun i => String.eqb (item_id i) (toId conn)) (items s) with
  | Some from, Some to =>
      let centerFrom := centerOf from in
      let centerTo := centerOf to in
      let start := getRectIntersection centerFrom centerTo (rectOf from) in
      let end_ := getRectIntersection centerTo centerFrom (rectOf to) in
      let dx := Qabs (pos_x end_ - pos_x start) * (1 # 2) in
      Some (mkCurve start
              (mkPosition (pos_x start + dx) (pos_y start))
              (mkPosition (pos_x end_ - dx) (pos_y end_))
              end_)
  | _, _ => None
  end.




(** Two boxes side by side, [{0,0,100,100}] and [{300,0,100,100}], joined by
    one connection. *)
Definition twoBoxes : AppState :=
  mkAppState
    [ plainItem "l" text 0 0 100 100 1; plainItem "r" text 300 0 100 100 2 ]%string
    [ mkConnection "c" "l" "r" "#FF6B6B" ]%string
    (mkPosition 0 0) 1 [] None.

(** The size of an item is non-negative. *)
Definition sized (i : CanvasItem) : Prop := 0 <= width i /\ 0 <= height i.

(** ** Pan and rubber-band gestures *)

(** A pan gesture is in progress, the last pointer position being [start]. *)
Definition panning (start : Position) (ed : Editor) : Prop :=
  dragMode ed = drag_pan /\ dragStart ed = Some start.

(** A rubber-band selection anchored at the world point [anchor] is in
    progress. *)
Definition selecting (anchor : Position) (ed : Editor) : Prop :=
  dragMode ed = drag_select /\ dragStart ed = Some anchor.

(** The centre of [i] lies in the rectangle spanned by [a] and [b]. *)
Definition centreWithin (a b : Position) (i : CanvasItem) : Prop :=
  (Qmin (pos_x a) (pos_x b) <= pos_x (centerOf i)
   /\ pos_x (centerOf i) <= Qmax (pos_x a) (pos_x b))
  /\ (Qmin (pos_y a) (pos_y b) <= pos_y (centerOf i)
      /\ pos_y (centerOf i) <= Qmax (pos_y a) (pos_y b)).

(** The pointer position after a run of moves that started at [start]. *)
Definition lastPosition (start : Position) (es : list MouseEvent) : Position :=
  fold_left (fun _ e => pointer e) es start.

(** ** The properties bar: layering and zoom ([src/App.tsx], lines 736,
    945-970 and 1029-1034) *)

(** [selectedItem] (line 736). *)
Definition selectedItem (s : AppState) : option CanvasItem :=
  find (fun i => JS.includes (selectedIds s) (item_id i)) (items s).

Definition zUpdate (z : Q) : PartialItem :=
  mkPartialItem None None None None None None None None None None None None None
    None None None (Some z) None.

(** The layering buttons, shown while an item is selected (so the array is
    not empty and [Math.min], [Math.max] are those of [minZ], [maxZ]). *)
Definition sendToBack (ed : Editor) : Editor :=
  match selectedItem (state ed) with
  | Some sel => updateItem (item_id sel) (zUpdate (minZ (items (state ed)) - 1)) ed
  | None => ed
  end.

Definition bringToFront (ed : Editor) : Editor :=
  match selectedItem (state ed) with
  | Some sel => updateItem (item_id sel) (zUpdate (maxZ (items (state ed)) + 1)) ed
  | None => ed
  end.

Definition set_scale (s : AppState) (k : Q) : AppState :=
  mkAppState (items s) (connections s) (pan s) k (selectedIds s) (selectionBox s).

(** The zoom buttons (lines 1029 and 1032). *)
Definition zoomIn (ed : Editor) : Editor :=
  setState (fun p => set_scale p (Qmin 2 (scale p + (1 # 10)))) ed.

Definition zoomOut (ed : Editor) : Editor :=
  setState (fun p => set_scale p (Qmax (2 # 10) (scale p - (1 # 10)))) ed.

(** The three ways to zoom. *)
Inductive Zoom :=
| byWheel (e : WheelEvent)
| byZoomIn
| byZoomOut.

Definition zoom (Math_exp : Q -> Q) (z : Zoom) (ed : Editor) : Editor :=
  match z with
  | byWheel e => handleWheel Math_exp e ed
  | byZoomIn => zoomIn ed
  | byZoomOut => zoomOut ed
  end.

Definition zooms (Math_exp : Q -> Q) (zs : list Zoom) (ed : Editor) : Editor :=
  fold_left (fun ed z => zoom Math_exp z ed) zs ed.

(** The scale range the wheel handler clamps to. *)
Definition scaleInRange (s : AppState) : Prop := 1 # 10 <= scale s /\ scale s <= 5.

(** The point [p], local to [it], lies in the box of [it]. *)
Definition withinBox (it : CanvasItem) (p : Position) : Prop :=
  (0 <= pos_x p /\ pos_x p <= width it) /\ (0 <= pos_y p /\ pos_y p <= height it).

(** The drawing item [it] holds one path, all of whose points lie in its box. *)
Definition snugStroke (it : CanvasItem) : Prop :=
  exists path,
    drawingData it = Some [path]
    /\ Forall (withinBox it) (points path)
    /\ 0 <= width it /\ 0 <= height it.

(** * The to-do handlers of [CanvasItemComp]
    ([src/components/CanvasItemComp.tsx], lines 33-66 and 268-272)

    Each handler of the component rendering [item] calls
    [onUpdate(item.id, updates)], that is [updateItem]; it is modelled by the
    [updates] it passes, and [applied] is what [updateItem] makes of [item]. *)

Definition todosUpdate (t : option (list TodoItem)) : PartialItem :=
  mkPartialItem None None None None None None None (Some t) None None None None
    None None None None None None.

Definition contentUpdate (val : string) : PartialItem :=
  mkPartialItem None None None None None None (Some (Some val)) None None None None
    None None None None None None None.

Definition applied (handler : CanvasItem -> PartialItem) (item : CanvasItem)
  : CanvasItem :=
  spread item (handler item).





Definition handleContentChange (val : string) (item : CanvasItem) : PartialItem :=
  contentUpdate val.

Definition handleTodoToggle (todoId : string) (item : CanvasItem) : PartialItem :=
  todosUpdate
    (option_map
       (map (fun t => if String.eqb (todo_id t) todoId
                      then mkTodoItem (todo_id t) (todo_text t)
                             (negb (todo_completed t)) (todo_urgency t)
                      else t))
       (todos item)).


(** [nowId] is [Date.now().toString()]. *)
Definition handleAddTodo (nowId : string) (item : CanvasItem) : PartialItem :=
  todosUpdate
    (Some (orElse (todos item) [] ++ [mkTodoItem nowId "New Task" false low])).

Definition handleTodoTextChange (todoId txt : string) (item : CanvasItem)
  : PartialItem :=
  todosUpdate
    (option_map
       (map (fun t => if String.eqb (todo_id t) todoId
                      then mkTodoItem (todo_id t) txt (todo_completed t)
                             (todo_urgency t)
                      else t))
       (todos item)).

(** The delete button of a to-do entry (lines 269-272). *)
Definition handleTodoDelete (todoId : string) (item : CanvasItem) : PartialItem :=
  todosUpdate
    (option_map (filter (fun t => negb (String.eqb (todo_id t) todoId)))
       (todos item)).

(** The to-do entries of [item], none when it has no list. *)
Definition todosOf (item : CanvasItem) : list TodoItem := orElse (todos item) [].

(** * Browser persistence ([src/services/webStorage.ts])

    [localStorage] is a map from keys to values.  A stored value is the
    document or the project list that [JSON.stringify] wrote, taken as read
    back by [JSON.parse] unchanged; a value of the other shape under a key
    stands for text that does not parse to what the reader expects.
    [uuidv4()] and [Date.now()] enter as arguments, one per call; the quota
    error of [setItem] is outside the model. *)

Record ProjectMetadata := mkProjectMetadata {
  project_id : string;
  project_name : string;
  project_path : string;
  lastOpened : Z;
  createdAt : Z;
  thumbnailPath : option string
}.

Inductive Stored :=
| StoredState (s : AppState)
| StoredRecents (l : list ProjectMetadata).

Definition LocalStorage := string -> option Stored.

Definition getItem (key : string) (ls : LocalStorage) : option Stored := ls key.

Definition setItem (key : string) (v : Stored) (ls : LocalStorage) : LocalStorage :=
  fun k => if String.eqb k key then Some v else ls k.

Definition removeItem (key : string) (ls : LocalStorage) : LocalStorage :=
  fun k => if String.eqb k key then None else ls k.

Definition emptyStorage : LocalStorage := fun _ => None.

Definition RECENTS_KEY : string := "lumiere_recents".
Definition PROJECT_PREFIX : string := "lumiere_project_".

Definition projectKey (id : string) : string := (PROJECT_PREFIX ++ id)%string.

(** [listRecentProjects] (lines 8-16). *)
Definition listRecentProjects (ls : LocalStorage) : list ProjectMetadata :=
  match getItem RECENTS_KEY ls with
  | Some (StoredRecents l) => l
  | _ => []
  end.

(** [createProject] (lines 18-51): the storage after it and the metadata it
    returns. *)
Definition createProject (id name : string) (now1 now2 : Z) (ls : LocalStorage)
  : LocalStorage * ProjectMetadata :=
  let metadata := mkProjectMetadata id name "local-storage" now1 now2 None in
  let ls := setItem (projectKey id) (StoredState INITIAL_STATE) ls in
  let recents := listRecentProjects ls in
  (setItem RECENTS_KEY (StoredRecents (metadata :: recents)) ls, metadata).

(** [recents.findIndex(r => r.id === id)], [None] for -1. *)
Fixpoint findIndex (id : string) (l : list ProjectMetadata) : option nat :=
  match l with
  | [] => None
  | r :: rest =>
      if String.eqb (project_id r) id then Some O
      else option_map S (findIndex id rest)
  end.

(** [recents.splice(index, 1)]. *)
Fixpoint removeAt {A} (n : nat) (l : list A) : list A :=
  match l, n with
  | [], _ => []
  | _ :: r, O => r
  | a :: r, S n => a :: removeAt n r
  end.

Definition touch (now : Z) (m : ProjectMetadata) : ProjectMetadata :=
  mkProjectMetadata (project_id m) (project_name m) (project_path m) now
    (createdAt m) (thumbnailPath m).

(** [saveProject] (lines 53-74). *)
Definition saveProject (id : string) (st : AppState) (now : Z) (ls : LocalStorage)
  : LocalStorage :=
  let ls := setItem (projectKey id) (StoredState st) ls in
  let recents := listRecentProjects ls in
  match findIndex id recents with
  | Some index =>
      match nth_error recents index with
      | Some metadata =>
          setItem RECENTS_KEY
            (StoredRecents (touch now metadata :: removeAt index recents)) ls
      | None => ls
      end
  | None => ls
  end.

(** [loadProject] (lines 76-96); [None] is the error thrown when nothing is
    stored for the project.  [now1], [now2] date the placeholder metadata and
    [now3] the save. *)
Definition loadProject (id : string) (now1 now2 now3 : Z) (ls : LocalStorage)
  : option (LocalStorage * (AppState * ProjectMetadata)) :=
  match getItem (projectKey id) ls with
  | Some (StoredState st) =>
      let recents := listRecentProjects ls in
      let finalMetadata :=
        match find (fun r => String.eqb (project_id r) id) recents with
        | Some metadata => metadata
        | None =>
            mkProjectMetadata id "Recovered Project" "local-storage" now1 now2 None
        end in
      Some (saveProject id st now3 ls, (st, finalMetadata))
  | _ => None
  end.

(** [deleteProject] (lines 98-108). *)
Definition deleteProject (id : string) (ls : LocalStorage) : LocalStorage :=
  let ls := removeItem (projectKey id) ls in
  let recents := listRecentProjects ls in
  setItem RECENTS_KEY
    (StoredRecents (filter (fun r => negb (String.eqb (project_id r) id)) recents))
    ls.

(** [exportProject] (lines 111-131): whether a download was started. *)
Definition exportProject (id : string) (ls : LocalStorage) : bool :=
  match getItem (projectKey id) ls with
  | Some _ => true
  | None => false
  end.

(** The state stored for a project. *)
Definition storedState (id : string) (ls : LocalStorage) : option AppState :=
  match getItem (projectKey id) ls with
  | Some (StoredState st) => Some st
  | _ => None
  end.

(** * Opening and saving projects ([src/App.tsx], lines 103-105 and 161-269)

    The handlers on their browser path ([window.moodboard] absent), over the
    editor, the two routing hooks and [localStorage].  Alerts and console
    output are left out. *)

Inductive View := view_home | view_editor.

Record Session := mkSession {
  editor : Editor;
  view : View;
  currentProject : option ProjectMetadata;
  storage : LocalStorage
}.

(** The session after mounting. *)
Definition initialSession (ls : LocalStorage) : Session :=
  mkSession initialEditor view_home None ls.






(** A to-do item with the two default entries, a storage holding one
    document that the recent list does not mention, and a session with a
    project open. *)
Definition sampleTodo : CanvasItem :=
  mkCanvasItem "t" todo 0 0 250 180 (Some ""%string) (Some defaultTodos) None None
    None None None None None None 3 None.




Definition handTool : Editor := setToolMode tool_hand sampleEditor.

(** * Properties *)

(** ** Helper facts on the JavaScript primitives *)

Lemma ltb_spec (a b : Q) : JS.ltb a b = true <-> a < b.
Proof.
  unfold JS.ltb. rewrite Qlt_alt. destruct (a ?= b); split; congruence.
Qed.

Lemma ltb_false (a b : Q) : JS.ltb a b = false <-> b <= a.
Proof.
  unfold JS.ltb.
  destruct (Qcompare_spec a b); split; intros; try congruence; lra.
Qed.

Lemma leb_spec (a b : Q) : JS.leb a b = true <-> a <= b.
Proof. apply Qle_bool_iff. Qed.

Lemma geb_spec (a b : Q) : JS.geb a b = true <-> b <= a.
Proof. apply Qle_bool_iff. Qed.

Lemma includes_spec (l : list string) (s : string) :
  JS.includes l s = true <-> In s l.
Proof.
  unfold JS.includes. rewrite existsb_exists. split.
  - intros [x [Hin Heq]]. apply String.eqb_eq in Heq. now subst.
  - intros Hin. exists s. split; [assumption | apply String.eqb_refl].
Qed.

(** ** Cascade delete *)

Lemma deleteSelection_connections (s : AppState) (c : Connection) :
  In c (connections (deleteSelection s)) ->
  In c (connections s)
  /\ ~ In (fromId c) (selectedIds s) /\ ~ In (toId c) (selectedIds s).
Proof.
  simpl. rewrite filter_In, andb_true_iff, !negb_true_iff.
  intros [Hin [Hf Ht]]. split; [assumption | split]; intro H;
    apply includes_spec in H; congruence.
Qed.

Lemma deleteSelection_items (s : AppState) (i : CanvasItem) :
  In i (items (deleteSelection s)) -> ~ In (item_id i) (selectedIds s).
Proof.
  simpl. rewrite filter_In, negb_true_iff. intros [_ Hn] H.
  apply includes_spec in H. congruence.
Qed.

Lemma kept_id (keep : string -> bool) (its : list CanvasItem) (id : string) :
  In id (map item_id its) -> keep id = true ->
  In id (map item_id (filter (fun i => keep (item_id i)) its)).
Proof.
  rewrite !in_map_iff. intros [i [Hid Hi]] Hk. exists i.
  split; [assumption |]. apply filter_In. split; [assumption | now rewrite Hid].
Qed.

Lemma onDelete_wellConnected (X : string) (ed : Editor) :
  wellConnected (state ed) -> wellConnected (state (onDelete X ed)).
Proof.
  intros Hw c Hc. simpl in *. apply filter_In in Hc. destruct Hc as [Hin Hc].
  apply andb_true_iff in Hc. destruct Hc as [Hf Ht].
  destruct (Hw c Hin) as [H1 H2]. split.
  - now apply (kept_id (fun id => negb (String.eqb id X))).
  - now apply (kept_id (fun id => negb (String.eqb id X))).
Qed.

Lemma deleteSelection_wellConnected (s : AppState) :
  wellConnected s -> wellConnected (deleteSelection s).
Proof.
  intros Hw c Hc. simpl in *. apply filter_In in Hc. destruct Hc as [Hin Hc].
  apply andb_true_iff in Hc. destruct Hc as [Hf Ht].
  destruct (Hw c Hin) as [H1 H2]. split.
  - now apply (kept_id (fun id => negb (JS.includes (selectedIds s) id))).
  - now apply (kept_id (fun id => negb (JS.includes (selectedIds s) id))).
Qed.

(** C1.  Deleting the item [X], by its delete control or by the keyboard
    delete of a selection that holds [X], leaves no item with id [X]; every
    connection that remains was there before and has neither its [fromId]
    nor its [toId] equal to [X]; and when no connection dangled before, none
    dangles after. *)
Theorem cascade_delete (X : string) (ed ed' : Editor) :
  deletes X ed ed' ->
  (forall i, In i (items (state ed')) -> item_id i <> X)
  /\ (forall c, In c (connections (state ed')) ->
        In c (connections (state ed)) /\ ~ references c X)
  /\ (wellConnected (state ed) -> wellConnected (state ed')).
Proof.
  intros [ | key tag Hkey Htag Hsel].
  - split; [| split].
    + simpl. intros i Hi. apply filter_In in Hi. destruct Hi as [_ Hi].
      apply negb_true_iff, String.eqb_neq in Hi. exact Hi.
    + simpl. intros c Hc. apply filter_In in Hc. destruct Hc as [Hin Hc].
      apply andb_true_iff in Hc. destruct Hc as [Hf Ht].
      apply negb_true_iff, String.eqb_neq in Hf.
      apply negb_true_iff, String.eqb_neq in Ht.
      split; [assumption | intros [H | H]; contradiction].
    + apply onDelete_wellConnected.
  - unfold handleKeyDown. rewrite Hkey, Htag.
    assert (Hlen : (0 <? List.length (selectedIds (state ed)))%nat = true).
    { destruct (selectedIds (state ed)); [contradiction | reflexivity]. }
    rewrite Hlen. cbn [state setState]. split; [| split].
    + intros i Hi Heq. apply deleteSelection_items in Hi. subst. contradiction.
    + intros c Hc. apply deleteSelection_connections in Hc.
      destruct Hc as [Hin [Hf Ht]].
      split; [assumption | intros [H | H]; subst; contradiction].
    + apply deleteSelection_wellConnected.
Qed.

(** ** The coordinate maps *)

(** C2.  For a viewport of non-zero scale, [screenToWorld] and
    [worldToScreen] are inverse to each other: composed in either order they
    give the point back (exactly, numbers being rationals). *)
Theorem screen_world_round_trip (s : AppState) (p : Position) :
  ~ scale s == 0 ->
  pos_eq (worldToScreen (screenToWorld p s) s) p
  /\ pos_eq (screenToWorld (worldToScreen p s) s) p.
Proof.
  intros Hs. unfold pos_eq, worldToScreen, screenToWorld. simpl.
  repeat split; field; assumption.
Qed.

Lemma newScale_positive (Math_exp : Q -> Q) (e : WheelEvent) (s : AppState) :
  1 # 10 <= newScaleOf Math_exp e s <= 5.
Proof.
  unfold newScaleOf.
  set (v := scale s * _).
  destruct (Q.max_spec (1 # 10) v) as [[H1 H2] | [H1 H2]];
  destruct (Q.min_spec (Qmax (1 # 10) v) 5) as [[H3 H4] | [H3 H4]];
  rewrite H4; try rewrite H2 in *; split; lra.
Qed.

(** C3.  A wheel zoom at the screen point [p] sets scale and pan together so
    that the world point under [p] is the same before and after. *)
Theorem wheel_zoom_pivot (Math_exp : Q -> Q) (e : WheelEvent) (ed : Editor) :
  ~ scale (state ed) == 0 ->
  pos_eq (screenToWorld (wheelPointer e) (state (handleWheel Math_exp e ed)))
         (screenToWorld (wheelPointer e) (state ed)).
Proof.
  intros Hs.
  pose proof (newScale_positive Math_exp e (state ed)) as [Hlo _].
  unfold pos_eq, screenToWorld, handleWheel, wheelPointer. simpl.
  set (k := newScaleOf Math_exp e (state ed)) in *.
  assert (Hk : ~ k == 0) by lra.
  split; field; split; assumption.
Qed.

(** ** Resize *)

Lemma Forall2_map_self {A} (R : A -> A -> Prop) (f : A -> A) (l : list A) :
  (forall a, In a l -> R a (f a)) -> Forall2 R l (map f l).
Proof.
  induction l as [| a l IH]; intros H; simpl; constructor.
  - apply H. now left.
  - apply IH. intros b Hb. apply H. now right.
Qed.

Lemma resized_refl (i : CanvasItem) : resized i i.
Proof. destruct i. reflexivity. Qed.

Lemma resize_starts (e : MouseEvent) (id : string) (ed : Editor) :
  toolMode ed = tool_select -> id <> ""%string ->
  resizing id (handleItemMouseDown e id on_resize ed).
Proof.
  intros Htool Hid. unfold handleItemMouseDown. rewrite Htool.
  repeat split; simpl; try assumption; discriminate.
Qed.

Lemma resize_step (e : MouseEvent) (id : string) (ed : Editor) :
  resizing id ed ->
  exists dx dy : Q,
    handleMouseMove e ed
    = Some (setDragStart (Some (pointer e)) (setState (resizeStep id dx dy) ed)).
Proof.
  intros (Hmode & Hact & Hid & Hstart).
  destruct (dragStart ed) as [start |] eqn:Hs; [| contradiction].
  exists ((clientX e - pos_x start) / scale (state ed)),
         ((clientY e - pos_y start) / scale (state ed)).
  unfold handleMouseMove, dragStep. rewrite Hmode, Hact, Hs. simpl.
  apply String.eqb_neq in Hid. rewrite Hid. reflexivity.
Qed.

Lemma resizeStep_floored (id : string) (dx dy : Q) (s : AppState) (i : CanvasItem) :
  In i (items (resizeStep id dx dy s)) -> item_id i = id -> floored i.
Proof.
  simpl. rewrite in_map_iff. intros [j [Hj _]] Hid.
  destruct (String.eqb (item_id j) id) eqn:Heq.
  - subst i. split; simpl; apply Q.le_max_l.
  - subst i. apply String.eqb_neq in Heq. contradiction.
Qed.

Lemma resizing_step_floor (e : MouseEvent) (id : string) (ed : Editor) :
  resizing id ed ->
  exists ed', handleMouseMove e ed = Some ed' /\ resizing id ed'
    /\ forall i, In i (items (state ed')) -> item_id i = id -> floored i.
Proof.
  intros Hr. destruct (resize_step e id ed Hr) as (dx & dy & Heq).
  eexists. split; [exact Heq |]. split.
  - destruct Hr as (Hmode & Hact & Hid & _).
    repeat split; simpl; try assumption; discriminate.
  - intros i. simpl. apply resizeStep_floored.
Qed.

(** C8.  In a resize gesture on the item [id] of a viewport of non-zero scale
    (pointer-down on its resize handle, then any non-empty run of
    pointer-moves, whatever their deltas),
    the moves never throw and the item's width and height are both at least
    50 after the last move, hence after every move. *)
Theorem resize_floor (e0 : MouseEvent) (id : string) (es : list MouseEvent)
    (ed : Editor) :
  toolMode ed = tool_select -> id <> ""%string -> es <> [] ->
  ~ scale (state ed) == 0 ->
  exists ed',
    moves es (handleItemMouseDown e0 id on_resize ed) = Some ed'
    /\ forall i, In i (items (state ed')) -> item_id i = id -> floored i.
Proof.
  intros Htool Hid Hes _.
  pose proof (resize_starts e0 id ed Htool Hid) as Hr.
  revert Hr. generalize (handleItemMouseDown e0 id on_resize ed).
  induction es as [| e es IH]; [contradiction |].
  intros ed1 Hr.
  destruct (resizing_step_floor e id ed1 Hr) as (ed2 & Hstep & Hr2 & Hfloor).
  simpl. rewrite Hstep.
  destruct es as [| e' es'].
  - exists ed2. split; [reflexivity | exact Hfloor].
  - apply IH; [discriminate | exact Hr2].
Qed.

(** C10.  A pointer-move of a resize gesture on a viewport of non-zero scale
    never throws and changes nothing
    but the width and height of the active item: every item keeps all its
    other fields, an item that is not the active one is unchanged, and so are
    the connections, the pan, the scale, the selection and the selection
    box. *)
Theorem resize_frame (e : MouseEvent) (ed : Editor) :
  dragMode ed = drag_resize ->
  ~ scale (state ed) == 0 ->
  exists ed',
    handleMouseMove e ed = Some ed'
    /\ connections (state ed') = connections (state ed)
    /\ pan (state ed') = pan (state ed)
    /\ scale (state ed') = scale (state ed)
    /\ selectedIds (state ed') = selectedIds (state ed)
    /\ selectionBox (state ed') = selectionBox (state ed)
    /\ Forall2 (fun i i' =>
                  resized i i' /\ (activeItemId ed <> Some (item_id i) -> i' = i))
               (items (state ed)) (items (state ed')).
Proof.
  intros Hmode _.
  assert (Hsame : Forall2 (fun i i' =>
                    resized i i' /\ (activeItemId ed <> Some (item_id i) -> i' = i))
                    (items (state ed)) (items (state ed))).
  { rewrite <- (map_id (items (state ed))) at 2.
    apply Forall2_map_self. intros a _. split; [apply resized_refl | reflexivity]. }
  unfold handleMouseMove, dragStep. rewrite Hmode.
  destruct (activeItemId ed) as [active |] eqn:Hact;
    destruct (dragStart ed) as [start |] eqn:Hs; simpl;
    try (exists ed; repeat split; (reflexivity || exact Hsame)).
  destruct (String.eqb active "") eqn:Hempty; simpl;
    try (exists ed; repeat split; (reflexivity || exact Hsame)).
  eexists. split; [reflexivity |]. simpl. repeat split.
  apply Forall2_map_self. intros a _.
  destruct (String.eqb (item_id a) active) eqn:Heq.
  - split; [reflexivity |]. apply String.eqb_eq in Heq. congruence.
  - split; [apply resized_refl | reflexivity].
Qed.

(** ** Connect *)

Lemma hit_spec (src : string) (p : Position) (i : CanvasItem) :
  hit src (pos_x p) (pos_y p) i = true <-> isTarget src p i.
Proof.
  unfold hit, isTarget, inBox.
  rewrite !andb_true_iff, negb_true_iff, !geb_spec, !leb_spec, String.eqb_neq.
  tauto.
Qed.

Lemma find_first {A} (f : A -> bool) (l : list A) :
  match find f l with
  | Some t => exists before after,
      l = before ++ t :: after /\ f t = true
      /\ forall i, In i before -> f i = false
  | None => forall i, In i l -> f i = false
  end.
Proof.
  induction l as [| a l IH]; simpl.
  - intros i [].
  - destruct (f a) eqn:Ha.
    + exists [], l. repeat split; [assumption | intros i []].
    + destruct (find f l) as [t |].
      * destruct IH as (before & after & Hl & Ht & Hb).
        exists (a :: before), after. subst l. repeat split; [assumption |].
        intros i [Hi | Hi]; [now subst | now apply Hb].
      * intros i [Hi | Hi]; [now subst | now apply IH].
Qed.

Lemma first_unique {A} (P : A -> Prop) (b1 b2 a1 a2 : list A) (t1 t2 : A) :
  b1 ++ t1 :: a1 = b2 ++ t2 :: a2 ->
  P t1 -> P t2 ->
  (forall i, In i b1 -> ~ P i) -> (forall i, In i b2 -> ~ P i) ->
  t1 = t2.
Proof.
  revert b2. induction b1 as [| x b1 IH]; intros [| y b2] Heq H1 H2 Hb1 Hb2;
    simpl in Heq; injection Heq as Hhd Htl.
  - assumption.
  - subst y. exfalso. apply (Hb2 t1); [now left | assumption].
  - subst x. exfalso. apply (Hb1 t2); [now left | assumption].
  - apply (IH b2 Htl H1 H2).
    + intros i Hi. apply Hb1. now right.
    + intros i Hi. apply Hb2. now right.
Qed.

Lemma pickColor_palette (r : Q) : 0 <= r -> r < 1 -> In (pickColor r) COLORS.
Proof.
  intros H0 H1. unfold pickColor. apply nth_In.
  change (List.length COLORS) with 5%nat.
  change (numOfNat 5) with (inject_Z 5).
  assert (Hlo : (0 <= Qfloor (r * inject_Z 5))%Z).
  { change 0%Z with (Qfloor 0). apply Qfloor_resp_le.
    change (inject_Z 5) with 5. lra. }
  assert (Hhi : (Qfloor (r * inject_Z 5) < 5)%Z).
  { rewrite Zlt_Qlt. apply Qle_lt_trans with (r * inject_Z 5).
    - apply Qfloor_le.
    - change (inject_Z 5) with 5. lra. }
  lia.
Qed.

Lemma connect_starts (e : MouseEvent) (src : string) (ed : Editor) :
  toolMode ed = tool_select -> src <> ""%string ->
  connecting src (handleItemMouseDown e src on_connect ed)
  /\ items (state (handleItemMouseDown e src on_connect ed)) = items (state ed)
  /\ connections (state (handleItemMouseDown e src on_connect ed))
     = connections (state ed)
  /\ pan (state (handleItemMouseDown e src on_connect ed)) = pan (state ed)
  /\ scale (state (handleItemMouseDown e src on_connect ed)) = scale (state ed).
Proof.
  intros Htool Hsrc. unfold handleItemMouseDown, connecting. rewrite Htool.
  simpl. repeat split; try assumption; discriminate.
Qed.

Lemma connect_moves (src : string) (es : list MouseEvent) (ed : Editor) :
  connecting src ed ->
  exists ed', moves es ed = Some ed' /\ connecting src ed'
              /\ state ed' = state ed.
Proof.
  revert ed. induction es as [| e es IH]; intros ed Hc.
  - exists ed. repeat split; try apply Hc; reflexivity.
  - destruct Hc as (Hmode & Hact & Hsrc & Hstart).
    destruct (dragStart ed) as [start |] eqn:Hs; [| contradiction].
    simpl. unfold handleMouseMove, dragStep. rewrite Hmode, Hs. simpl.
    match goal with |- context [moves es ?x] => destruct (IH x) as (ed' & Hm & Hc' & Hst) end.
    { unfold connecting. simpl. rewrite Hs. repeat split; try assumption; discriminate. }
    exists ed'. repeat split; try apply Hc'; assumption.
Qed.

(** C7.  A connect gesture from the item [src] on a viewport of non-zero
    scale (pointer-down on its connect dot, any run of pointer-moves, release
    at the world point [p], [r] being the draw of [Math.random]) never
    throws; on release, when [t] is the first item of the array, other than
    [src], whose bounding box holds [p], exactly one connection from [src] to
    [t] with a colour of the palette is appended, and when no item is such a
    target the connections are unchanged; either way the items are unchanged
    and the gesture is over. *)
Theorem connect_release (e0 e : MouseEvent) (src connId : string) (r : Q)
    (es : list MouseEvent) (ed : Editor) :
  toolMode ed = tool_select -> src <> ""%string -> 0 <= r -> r < 1 ->
  ~ scale (state ed) == 0 ->
  exists ed1,
    moves es (handleItemMouseDown e0 src on_connect ed) = Some ed1
    /\ let ed' := handleMouseUp connId r e ed1 in
       let p := screenToWorld (pointer e) (state ed) in
       items (state ed') = items (state ed)
       /\ dragMode ed' = drag_none
       /\ (forall t, firstTarget src p (items (state ed)) t ->
             exists col, In col COLORS
               /\ connections (state ed')
                  = connections (state ed) ++ [mkConnection connId src (item_id t) col])
       /\ ((forall i, In i (items (state ed)) -> ~ isTarget src p i) ->
             connections (state ed') = connections (state ed)).
Proof.
  intros Htool Hsrc Hr0 Hr1 _.
  destruct (connect_starts e0 src ed Htool Hsrc) as (Hc & Hits & Hcs & Hpan & Hsc).
  destruct (connect_moves src es _ Hc) as (ed1 & Hm & Hc1 & Hst).
  exists ed1. split; [exact Hm |].
  destruct Hc1 as (Hmode & Hact & _ & _).
  assert (Hits1 : items (state ed1) = items (state ed)) by (rewrite Hst; exact Hits).
  assert (Hcs1 : connections (state ed1) = connections (state ed))
    by (rewrite Hst; exact Hcs).
  assert (Hp : screenToWorld (pointer e) (state ed1)
               = screenToWorld (pointer e) (state ed)).
  { unfold screenToWorld. rewrite Hst, Hpan, Hsc. reflexivity. }
  cbv zeta. unfold handleMouseUp, connectUp. rewrite Hmode, Hact.
  apply String.eqb_neq in Hsrc.
  cbn [JS.truthy]. rewrite Hsrc. cbn [negb].
  change ((clientX e - pos_x (pan (state ed1))) / scale (state ed1))
    with (pos_x (screenToWorld (pointer e) (state ed1))).
  change ((clientY e - pos_y (pan (state ed1))) / scale (state ed1))
    with (pos_y (screenToWorld (pointer e) (state ed1))).
  rewrite Hp, Hits1.
  set (p := screenToWorld (pointer e) (state ed)).
  pose proof (find_first (hit src (pos_x p) (pos_y p)) (items (state ed))) as Hfind.
  destruct (find (hit src (pos_x p) (pos_y p)) (items (state ed))) as [t |].
  - destruct Hfind as (before & after & Hl & Ht & Hb).
    cbn. rewrite Hits1, Hcs1. repeat split.
    + intros t' (b' & a' & Hl' & Ht' & Hb').
      assert (t = t') as <-.
      { apply (first_unique (isTarget src p) before b' after a').
        - congruence.
        - now apply hit_spec.
        - assumption.
        - intros i Hi Hti. apply hit_spec in Hti. rewrite (Hb i Hi) in Hti.
          discriminate.
        - assumption. }
      exists (pickColor r). split; [now apply pickColor_palette | reflexivity].
    + intros Hnone. exfalso. apply (Hnone t).
      * rewrite Hl. apply in_elt.
      * now apply hit_spec.
  - cbn. rewrite Hits1, Hcs1. repeat split.
    intros t (b' & a' & Hl' & Ht' & _). exfalso.
    apply hit_spec in Ht'. rewrite (Hfind t) in Ht'; [discriminate |].
    rewrite Hl'. apply in_elt.
Qed.

(** ** Reactions *)

Section Reactions.

Variable e : string.

Lemma hasEmoji_own (k : Z) : hasEmoji e (mkReaction e k) = true.
Proof. apply String.eqb_refl. Qed.

Lemma without_find (l : list Reaction) :
  find (hasEmoji e) l = None <-> without e l.
Proof.
  unfold without. rewrite Forall_forall. split.
  - intros H r Hr. exact (find_none _ _ H r Hr).
  - intros H. induction l as [| a l IH]; [reflexivity |]. simpl.
    rewrite (H a) by now left. apply IH. intros r Hr. apply H. now right.
Qed.

Lemma find_last (l : list Reaction) (k : Z) :
  without e l -> find (hasEmoji e) (l ++ [mkReaction e k]) = Some (mkReaction e k).
Proof.
  induction 1 as [| a l Ha _ IH]; simpl.
  - now rewrite hasEmoji_own.
  - now rewrite Ha.
Qed.

Lemma map_without (g : Reaction -> Reaction) (l : list Reaction) :
  without e l -> map (fun r => if hasEmoji e r then g r else r) l = l.
Proof.
  induction 1 as [| a l Ha _ IH]; simpl; [reflexivity |].
  now rewrite Ha, IH.
Qed.

Lemma filter_without (l : list Reaction) :
  without e l ->
  filter (hasEmoji e) l = [] /\ filter (fun r => negb (hasEmoji e r)) l = l.
Proof.
  induction 1 as [| a l Ha _ [IH1 IH2]]; simpl; [now split |].
  rewrite Ha. simpl. now rewrite IH1, IH2.
Qed.

Lemma reactionsOf_reactAdd (item : CanvasItem) :
  reactionsOf (reactAdd e item) = addReaction e item.
Proof. reflexivity. Qed.

Lemma add_first (item : CanvasItem) :
  without e (reactionsOf item) ->
  reactionsOf (reactAdd e item) = reactionsOf item ++ [mkReaction e 1].
Proof.
  intros H. rewrite reactionsOf_reactAdd. unfold addReaction.
  fold (reactionsOf item). apply without_find in H. now rewrite H.
Qed.

Lemma add_more (item : CanvasItem) (l : list Reaction) (k : Z) :
  without e l ->
  reactionsOf item = l ++ [mkReaction e k] ->
  reactionsOf (reactAdd e item) = l ++ [mkReaction e (k + 1)].
Proof.
  intros H Hl. rewrite reactionsOf_reactAdd. unfold addReaction.
  fold (reactionsOf item). rewrite Hl, (find_last l k H), map_app.
  rewrite (map_without _ l H). simpl. now rewrite hasEmoji_own.
Qed.

Lemma remove_more (item : CanvasItem) (l : list Reaction) (k : Z) :
  without e l -> (1 < k)%Z ->
  reactionsOf item = l ++ [mkReaction e k] ->
  reactionsOf (reactRemove e item) = l ++ [mkReaction e (k - 1)].
Proof.
  intros H Hk Hl. unfold reactRemove, removeReaction.
  fold (reactionsOf item). rewrite Hl, (find_last l k H). simpl count.
  apply Z.ltb_lt in Hk. rewrite Hk. unfold reactionsOf at 1. simpl.
  rewrite map_app, (map_without _ l H). simpl. now rewrite hasEmoji_own.
Qed.

Lemma remove_last (item : CanvasItem) (l : list Reaction) (k : Z) :
  without e l -> (k <= 1)%Z ->
  reactionsOf item = l ++ [mkReaction e k] ->
  reactionsOf (reactRemove e item) = l.
Proof.
  intros H Hk Hl. unfold reactRemove, removeReaction.
  fold (reactionsOf item). rewrite Hl, (find_last l k H). simpl count.
  apply Z.ltb_ge in Hk. rewrite Hk. unfold reactionsOf at 1. simpl.
  rewrite filter_app. simpl. rewrite hasEmoji_own. simpl.
  rewrite app_nil_r. apply (filter_without l H).
Qed.

Lemma iter_add (item : CanvasItem) (n : nat) :
  without e (reactionsOf item) ->
  reactionsOf (Nat.iter (S n) (reactAdd e) item)
  = reactionsOf item ++ [mkReaction e (Z.of_nat (S n))].
Proof.
  intros H. induction n as [| n IH].
  - simpl. now apply add_first.
  - change (Nat.iter (S (S n)) (reactAdd e) item)
      with (reactAdd e (Nat.iter (S n) (reactAdd e) item)).
    rewrite (add_more _ _ _ H IH).
    replace (Z.of_nat (S (S n))) with (Z.of_nat (S n) + 1)%Z by lia.
    reflexivity.
Qed.

Lemma iter_remove (item : CanvasItem) (l : list Reaction) (n j : nat) :
  without e l ->
  reactionsOf item = l ++ [mkReaction e (Z.of_nat (S n))] ->
  (j <= n)%nat ->
  reactionsOf (Nat.iter j (reactRemove e) item)
  = l ++ [mkReaction e (Z.of_nat (S n) - Z.of_nat j)]
  /\ reactionsOf (Nat.iter (S n) (reactRemove e) item) = l.
Proof.
  intros H Hl.
  assert (Hj : forall j, (j <= n)%nat ->
            reactionsOf (Nat.iter j (reactRemove e) item)
            = l ++ [mkReaction e (Z.of_nat (S n) - Z.of_nat j)]).
  { clear j. induction j as [| j IH]; intros Hle.
    - simpl Nat.iter. rewrite Hl.
      replace (Z.of_nat (S n) - Z.of_nat 0)%Z with (Z.of_nat (S n)) by lia.
      reflexivity.
    - change (Nat.iter (S j) (reactRemove e) item)
        with (reactRemove e (Nat.iter j (reactRemove e) item)).
      rewrite (remove_more _ l (Z.of_nat (S n) - Z.of_nat j) H);
        [| lia | apply IH; lia].
      replace (Z.of_nat (S n) - Z.of_nat (S j))%Z
        with (Z.of_nat (S n) - Z.of_nat j - 1)%Z by lia.
      reflexivity. }
  intros Hle. split; [now apply Hj |].
  change (Nat.iter (S n) (reactRemove e) item)
    with (reactRemove e (Nat.iter n (reactRemove e) item)).
  apply (remove_last _ l (Z.of_nat (S n) - Z.of_nat n) H); [lia |].
  apply Hj. lia.
Qed.

End Reactions.

(** C6.  On an item with no reaction entry for [e], adding [e] [n >= 1] times
    gives exactly one entry for [e], of count [n]; removing [e] [n] times
    after that leaves no entry for [e] and the reactions the item had at the
    start; and when every count of the item is at least 1 at the start, it is
    so after each of the additions and each of the removals. *)
Theorem reaction_counting (e : string) (item : CanvasItem) (n : nat) :
  find (hasEmoji e) (reactionsOf item) = None ->
  (1 <= n)%nat ->
  let added := Nat.iter n (reactAdd e) item in
  let removed := Nat.iter n (reactRemove e) added in
  entries e added = [mkReaction e (Z.of_nat n)]
  /\ entries e removed = []
  /\ reactionsOf removed = reactionsOf item
  /\ (countsPositive item ->
      forall k, (k <= n)%nat ->
        countsPositive (Nat.iter k (reactAdd e) item)
        /\ countsPositive (Nat.iter k (reactRemove e) added)).
Proof.
  intros Hnone Hn. apply without_find in Hnone.
  destruct n as [| n]; [lia |]. cbv zeta.
  pose proof (iter_add e item n Hnone) as Hadd.
  pose proof (fun j => iter_remove e _ _ n j Hnone Hadd) as Hrem.
  destruct (Hrem 0%nat (Nat.le_0_l n)) as [_ Hall].
  destruct (filter_without e _ Hnone) as [Hnil _].
  unfold entries. rewrite Hall, Hadd, filter_app, Hnil.
  split; [simpl; now rewrite hasEmoji_own |].
  split; [reflexivity |]. split; [reflexivity |].
  intros Hpos k Hk. unfold countsPositive in *. split.
  - destruct k as [| k]; [exact Hpos |].
    rewrite (iter_add e item k Hnone). apply Forall_app. split; [exact Hpos |].
    constructor; [cbn [count]; lia | constructor].
  - destruct (Nat.eq_dec k (S n)) as [-> | Hne]; [now rewrite Hall |].
    assert (Hle : (k <= n)%nat) by lia.
    destruct (Hrem k Hle) as [Hk' _]. rewrite Hk'.
    apply Forall_app. split; [exact Hpos |].
    constructor; [cbn [count]; lia | constructor].
Qed.

(** ** Move with children *)

Lemma translate_id (ds : list (Q * Q)) (i : CanvasItem) :
  item_id (translate ds i) = item_id i.
Proof.
  revert i. induction ds as [| d ds IH]; intros i; [reflexivity |].
  unfold translate in *. simpl. now rewrite IH.
Qed.

Lemma containedIn_spec (S other : CanvasItem) :
  containedIn (item_id S) S other = true
  <-> item_id other <> item_id S /\ inside S other.
Proof.
  unfold containedIn, inside.
  rewrite !andb_true_iff, negb_true_iff, !geb_spec, !leb_spec, String.eqb_neq.
  tauto.
Qed.

Lemma NoDup_map_inj {A B} (f : A -> B) (l : list A) (a b : A) :
  NoDup (map f l) -> In a l -> In b l -> f a = f b -> a = b.
Proof.
  induction l as [| x l IH]; simpl; intros Hnd Ha Hb Heq; [contradiction |].
  inversion Hnd as [| ? ? Hx Hl]; subst.
  destruct Ha as [-> | Ha], Hb as [-> | Hb].
  - reflexivity.
  - exfalso. apply Hx. rewrite Heq. now apply in_map.
  - exfalso. apply Hx. rewrite <- Heq. now apply in_map.
  - now apply IH.
Qed.

Lemma find_by_id (its : list CanvasItem) (S : CanvasItem) :
  NoDup (map item_id its) -> In S its ->
  find (fun i => String.eqb (item_id i) (item_id S)) its = Some S.
Proof.
  intros Hnd Hin.
  pose proof (find_first (fun i => String.eqb (item_id i) (item_id S)) its) as H.
  destruct (find _ its) as [t |].
  - destruct H as (before & after & Hl & Ht & _). f_equal.
    apply String.eqb_eq in Ht.
    apply (NoDup_map_inj item_id its); try assumption.
    rewrite Hl. apply in_elt.
  - specialize (H S Hin). simpl in H. rewrite String.eqb_refl in H.
    discriminate.
Qed.

(** With distinct ids, the snapshot test of line 596 picks the group of [S]. *)
Lemma movesAlong_spec (its : list CanvasItem) (S i : CanvasItem) :
  NoDup (map item_id its) -> In i its ->
  movesAlong (item_id S)
    (map item_id (filter (containedIn (item_id S) S) its)) (item_id i) = true
  <-> inGroup S i.
Proof.
  intros Hnd Hi. unfold movesAlong, inGroup.
  rewrite orb_true_iff, String.eqb_eq, includes_spec, in_map_iff. split.
  - intros [Heq | [j [Hid Hj]]]; [now left | right].
    apply filter_In in Hj. destruct Hj as [Hj Hc].
    assert (j = i) as -> by (apply (NoDup_map_inj item_id its); assumption).
    now apply containedIn_spec in Hc.
  - intros [Heq | Hin]; [now left |].
    destruct (String.eqb_spec (item_id i) (item_id S)) as [Heq | Hne];
      [now left | right].
    exists i. split; [reflexivity |]. apply filter_In. split; [assumption |].
    now apply containedIn_spec.
Qed.

Lemma move_run (sid : string) (ch : list string) (es : list MouseEvent) :
  forall (start : Position) (ed : Editor),
    moving sid ch start ed ->
    exists ed',
      moves es ed = Some ed'
      /\ items (state ed')
         = map (fun it => if movesAlong sid ch (item_id it)
                          then translate (deltas (scale (state ed)) start es) it
                          else it)
               (items (state ed)).
Proof.
  induction es as [| e es IH]; intros start ed Hm.
  - exists ed. split; [reflexivity |]. simpl.
    rewrite <- (map_id (items (state ed))) at 1. apply map_ext.
    intros a. now destruct (movesAlong sid ch (item_id a)).
  - destruct Hm as (Hmode & Hact & Hsid & Hch & Hstart).
    simpl moves. unfold handleMouseMove, dragStep.
    rewrite Hmode, Hact, Hstart. simpl.
    apply String.eqb_neq in Hsid. rewrite Hsid. simpl.
    match goal with |- context [moves es ?x] =>
      destruct (IH (pointer e) x) as (ed' & Hrun & Hits) end.
    { unfold moving. simpl. apply String.eqb_neq in Hsid. tauto. }
    exists ed'. split; [exact Hrun |]. rewrite Hits. simpl.
    rewrite map_map. apply map_ext. intros a. rewrite Hch.
    fold (movesAlong sid ch (item_id a)).
    destruct (movesAlong sid ch (item_id a)) eqn:Ha; simpl.
    + rewrite Ha. reflexivity.
    + rewrite Ha. reflexivity.
Qed.

(** C4.  A move gesture on a shape item [S] of a document with distinct ids
    and a viewport of non-zero scale (pointer-down on its body, then any run
    of pointer-moves) never throws;
    after it, an item is translated by the run's world-space deltas, one after
    the other, when it is [S] or its bounding box lay within the box of [S]
    at pointer-down, and is unchanged otherwise, wherever the boxes are
    during the gesture. *)
Theorem move_with_children (e0 : MouseEvent) (S : CanvasItem)
    (es : list MouseEvent) (ed : Editor) :
  toolMode ed = tool_select ->
  item_id S <> ""%string ->
  NoDup (map item_id (items (state ed))) ->
  In S (items (state ed)) ->
  item_type S = shape ->
  ~ scale (state ed) == 0 ->
  exists ed',
    moves es (handleItemMouseDown e0 (item_id S) on_move ed) = Some ed'
    /\ Forall2 (fun i i' =>
                  (inGroup S i ->
                     i' = translate (deltas (scale (state ed)) (pointer e0) es) i)
                  /\ (~ inGroup S i -> i' = i))
               (items (state ed)) (items (state ed')).
Proof.
  intros Htool Hsid Hnd Hin Hshape _.
  set (ch := map item_id (filter (containedIn (item_id S) S) (items (state ed)))).
  assert (Hm : moving (item_id S) ch (pointer e0)
                 (handleItemMouseDown e0 (item_id S) on_move ed)).
  { unfold handleItemMouseDown, moving. rewrite Htool. simpl.
    repeat split; try assumption.
    unfold childrenOf. rewrite (find_by_id _ S Hnd Hin), Hshape. reflexivity. }
  destruct (move_run (item_id S) ch es _ _ Hm) as (ed' & Hrun & Hits).
  exists ed'. split; [exact Hrun |]. rewrite Hits.
  assert (Hst : state (handleItemMouseDown e0 (item_id S) on_move ed)
                = set_selectedIds (state ed)
                    (if JS.includes (selectedIds (state ed)) (item_id S)
                     then selectedIds (state ed) else [item_id S])).
  { unfold handleItemMouseDown. rewrite Htool. reflexivity. }
  rewrite Hst. simpl. apply Forall2_map_self. intros a Ha.
  pose proof (movesAlong_spec (items (state ed)) S a Hnd Ha) as Hspec.
  fold ch in Hspec.
  destruct (movesAlong (item_id S) ch (item_id a)).
  - split; [reflexivity |]. intros Hn. exfalso. apply Hn. now apply Hspec.
  - split; [| reflexivity]. intros Hg. apply Hspec in Hg. discriminate.
Qed.

(** ** Freehand drawing *)

Lemma negPart_spec (v : Q) : negPart v <= 0 /\ negPart v <= v /\ negPart v == Qmin 0 v.
Proof.
  unfold negPart. destruct (JS.ltb v 0) eqn:H.
  - apply ltb_spec in H. repeat split; try lra.
    symmetry. apply Q.min_r. lra.
  - apply ltb_false in H. repeat split; try lra.
    symmetry. apply Q.min_l. lra.
Qed.

Lemma grow_nonNegative (ps : list Position) :
  Forall nonNegative ps ->
  forall b, minX b <= 0 -> minY b <= 0 ->
    minX (fold_left growBounds ps b) = minX b
    /\ minY (fold_left growBounds ps b) = minY b.
Proof.
  induction 1 as [| p ps [Hx Hy] _ IH]; intros b Hbx Hby; [now split |].
  simpl fold_left.
  assert (Hgx : minX (growBounds b p) = minX b).
  { simpl. replace (JS.ltb (pos_x p) (minX b)) with false; [reflexivity |].
    symmetry. apply ltb_false. lra. }
  assert (Hgy : minY (growBounds b p) = minY b).
  { simpl. replace (JS.ltb (pos_y p) (minY b)) with false; [reflexivity |].
    symmetry. apply ltb_false. lra. }
  destruct (IH (growBounds b p)) as [H1 H2]; [rewrite Hgx; lra | rewrite Hgy; lra |].
  split; congruence.
Qed.

Lemma negPart_idem (v : Q) :
  (if JS.ltb (negPart v) 0 then negPart v else 0) = negPart v.
Proof.
  unfold negPart. destruct (JS.ltb v 0) eqn:H; [now rewrite H | reflexivity].
Qed.

(** One append-and-reflow on a tidy stroke. *)
Lemma reflow_tidy (mouseX mouseY : Q) (it : CanvasItem) (path : DrawingPath) :
  drawingData it = Some [path] ->
  Forall nonNegative (points path) ->
  let it' := reflow mouseX mouseY it [path] 0 path in
  tidyStroke it'
  /\ item_id it' = item_id it
  /\ item_x it' = item_x it + negPart (mouseX - item_x it)
  /\ item_y it' = item_y it + negPart (mouseY - item_y it).
Proof.
  intros Hdata Hpos. cbv zeta. unfold reflow.
  set (np := mkPosition (mouseX - item_x it) (mouseY - item_y it)).
  set (b0 := mkBounds 0 0 (width it) (height it)).
  rewrite fold_left_app. simpl fold_left.
  destruct (grow_nonNegative (points path) Hpos b0) as [Hbx Hby];
    [simpl; lra | simpl; lra |].
  set (b := fold_left growBounds (points path) b0) in *.
  assert (Hmx : minX (growBounds b np) = negPart (mouseX - item_x it)).
  { simpl. rewrite Hbx. reflexivity. }
  assert (Hmy : minY (growBounds b np) = negPart (mouseY - item_y it)).
  { simpl. rewrite Hby. reflexivity. }
  rewrite Hmx, Hmy, !negPart_idem.
  destruct (negPart_spec (mouseX - item_x it)) as (Hx0 & Hxv & _).
  destruct (negPart_spec (mouseY - item_y it)) as (Hy0 & Hyv & _).
  split; [| repeat split].
  eexists. split; [reflexivity |]. simpl points.
  rewrite map_app. apply Forall_app. split.
  - rewrite Forall_map. eapply Forall_impl; [| exact Hpos].
    intros p [Hpx Hpy]. split; simpl; lra.
  - constructor; [| constructor]. split; simpl; lra.
Qed.

Lemma mapThrow_others (mouseX mouseY : Q) (active : string) (l : list CanvasItem) :
  ~ In active (map item_id l) ->
  mapThrow (drawItem mouseX mouseY active) l = Some l.
Proof.
  induction l as [| a l IH]; intros Hn; [reflexivity |]. simpl in *.
  unfold drawItem at 1.
  replace (String.eqb (item_id a) active) with false.
  - simpl. rewrite IH; [reflexivity | tauto].
  - symmetry. apply String.eqb_neq. tauto.
Qed.

Lemma mapThrow_app {A B} (f : A -> option B) (l1 l2 : list A) (r1 r2 : list B) :
  mapThrow f l1 = Some r1 -> mapThrow f l2 = Some r2 ->
  mapThrow f (l1 ++ l2) = Some (r1 ++ r2).
Proof.
  revert r1. induction l1 as [| a l1 IH]; simpl; intros r1 H1 H2.
  - injection H1 as <-. exact H2.
  - destruct (f a) as [b |]; [| discriminate].
    destruct (mapThrow f l1) as [bs |]; [| discriminate].
    injection H1 as <-. now rewrite (IH bs eq_refl H2).
Qed.

Lemma min_of_compat (a b : Q) (l : list Q) :
  a == b -> JS.min_of a l == JS.min_of b l.
Proof.
  revert a b. induction l as [| m l IH]; intros a b Hab; [exact Hab |].
  simpl. apply IH. now rewrite Hab.
Qed.

Lemma min_of_shift (s : Q) (ms : list Q) :
  forall a, JS.min_of a (map (fun m => m - s) ms) == JS.min_of (a + s) ms - s.
Proof.
  induction ms as [| m ms IH]; intros a; simpl; [ring |].
  rewrite IH. apply Qplus_inj_r. apply min_of_compat.
  rewrite <- Q.plus_min_distr_r. apply Q.min_compat; ring.
Qed.

(** A run of pointer-moves of a draw gesture on a tidy stroke. *)
Lemma draw_run (before : list CanvasItem) (pn : Position) (sc : Q)
    (es : list MouseEvent) :
  forall (it : CanvasItem) (ed : Editor),
    drawingOn before pn sc it ed ->
    item_id it <> ""%string ->
    ~ In (item_id it) (map item_id before) ->
    tidyStroke it ->
    exists ed' it',
      moves es ed = Some ed'
      /\ items (state ed') = before ++ [it']
      /\ item_id it' = item_id it
      /\ tidyStroke it'
      /\ item_x it'
         == JS.min_of (item_x it) (map (fun e => (clientX e - pos_x pn) / sc) es)
      /\ item_y it'
         == JS.min_of (item_y it) (map (fun e => (clientY e - pos_y pn) / sc) es).
Proof.
  induction es as [| e es IH]; intros it ed Hd Hid Hfresh Htidy.
  - exists ed, it. destruct Hd as (_ & _ & _ & Hits & _).
    repeat split; try assumption; reflexivity.
  - destruct Hd as (Hmode & Hact & Hstart & Hits & Hpan & Hsc).
    destruct Htidy as (path & Hdata & Hpos).
    destruct (dragStart ed) as [start |] eqn:Hs; [| contradiction].
    set (mouseX := (clientX e - pos_x pn) / sc).
    set (mouseY := (clientY e - pos_y pn) / sc).
    pose proof (reflow_tidy mouseX mouseY it path Hdata Hpos) as Hre.
    cbv zeta in Hre. set (it1 := reflow mouseX mouseY it [path] 0 path) in *.
    destruct Hre as (Htidy1 & Hid1 & Hx1 & Hy1).
    assert (Hstep : handleMouseMove e ed
                    = Some (setState (fun prev => set_items prev (before ++ [it1])) ed)).
    { unfold handleMouseMove. rewrite Hmode, Hact, Hs, Hits, Hpan, Hsc.
      apply String.eqb_neq in Hid. cbn [JS.truthy]. rewrite Hid. cbn [negb].
      fold mouseX mouseY.
      rewrite (mapThrow_app _ before [it] before [it1]); [reflexivity | |].
      - now apply mapThrow_others.
      - simpl. unfold drawItem. rewrite String.eqb_refl, Hdata. reflexivity. }
    destruct (IH it1 (setState (fun prev => set_items prev (before ++ [it1])) ed))
      as (ed' & it' & Hrun & Hits' & Hid' & Htidy' & Hx' & Hy').
    { unfold drawingOn. rewrite Hid1. cbn [dragMode activeItemId dragStart
        state setState items pan scale set_items]. rewrite Hs.
      repeat split; try assumption; discriminate. }
    { congruence. }
    { now rewrite Hid1. }
    { exact Htidy1. }
    exists ed', it'. simpl moves. rewrite Hstep.
    repeat split; try assumption; try congruence.
    + simpl map. simpl JS.min_of. fold mouseX.
      rewrite Hx'. apply min_of_compat. rewrite Hx1.
      destruct (negPart_spec (mouseX - item_x it)) as (_ & _ & Hmin).
      rewrite Hmin. rewrite <- Q.plus_min_distr_l. apply Q.min_compat; ring.
    + simpl map. simpl JS.min_of. fold mouseY.
      rewrite Hy'. apply min_of_compat. rewrite Hy1.
      destruct (negPart_spec (mouseY - item_y it)) as (_ & _ & Hmin).
      rewrite Hmin. rewrite <- Q.plus_min_distr_l. apply Q.min_compat; ring.
Qed.

Lemma pen_down (newId : string) (e0 : MouseEvent) (ed : Editor) :
  toolMode ed = tool_pen ->
  let down := screenToWorld (pointer e0) (state ed) in
  exists it,
    drawingOn (items (state ed)) (pan (state ed)) (scale (state ed)) it
      (handleMouseDown newId e0 ed)
    /\ item_id it = newId
    /\ item_x it = pos_x down /\ item_y it = pos_y down
    /\ zIndex it = numOfNat (List.length (items (state ed))) + 1
    /\ tidyStroke it.
Proof.
  intros Htool. cbv zeta. unfold handleMouseDown.
  assert (Hopen : forall ed0 : Editor,
            toolMode ed0 = tool_pen -> state ed0 = state ed ->
            exists it,
              drawingOn (items (state ed)) (pan (state ed)) (scale (state ed)) it
                (let s := state ed0 in
                 match toolMode ed0 with
                 | tool_pen =>
                     let startX := (clientX e0 - pos_x (pan s)) / scale s in
                     let startY := (clientY e0 - pos_y (pan s)) / scale s in
                     let newItem := newDrawing newId startX startY ed0 in
                     setDragStart (Some (mkPosition startX startY))
                       (setState (fun prev =>
                          mkAppState (items prev ++ [newItem]) (connections prev)
                            (pan prev) (scale prev) [item_id newItem]
                            (selectionBox prev))
                          (setActiveItemId (Some (item_id newItem))
                             (setDragMode drag_draw ed0)))
                 | _ => ed0
                 end)
              /\ item_id it = newId
              /\ item_x it = pos_x (screenToWorld (pointer e0) (state ed))
              /\ item_y it = pos_y (screenToWorld (pointer e0) (state ed))
              /\ zIndex it = numOfNat (List.length (items (state ed))) + 1
              /\ tidyStroke it).
  { intros ed0 Ht Hst. cbv zeta. rewrite Ht, Hst.
    eexists. split; [| split; [| split; [| split; [| split]]]].
    - unfold drawingOn. simpl. rewrite Hst.
      repeat split; try reflexivity. discriminate.
    - reflexivity.
    - reflexivity.
    - reflexivity.
    - simpl. rewrite Hst. reflexivity.
    - eexists. split; [reflexivity |]. simpl.
      constructor; [split; simpl; lra | constructor]. }
  destruct (emojiPicker ed) as [picker |].
  - destruct (inEmojiPicker e0); simpl negb; cbv iota.
    + destruct (Hopen ed Htool eq_refl) as (it & H). exists it.
      rewrite Htool in *. exact H.
    + destruct (Hopen (setEmojiPicker None ed) Htool eq_refl) as (it & H).
      exists it. cbn [toolMode setEmojiPicker] in *. rewrite Htool in *. exact H.
  - destruct (Hopen ed Htool eq_refl) as (it & H). exists it.
    rewrite Htool in *. exact H.
Qed.

(** C5.  In a draw gesture on a viewport of non-zero scale (pen pointer-down
    with a fresh, non-empty id, then any run of pointer-moves), the moves
    never throw, and after the last move, hence after every move, the drawing
    item is the last of the array, all its stored points are non-negative in
    both coordinates, and its origin is away from the pointer-down point by
    the minimum, in each coordinate, of zero and the excursions of the
    pointer from that point. *)
Theorem draw_reflow (newId : string) (e0 : MouseEvent) (es : list MouseEvent)
    (ed : Editor) :
  toolMode ed = tool_pen ->
  newId <> ""%string ->
  ~ In newId (map item_id (items (state ed))) ->
  ~ scale (state ed) == 0 ->
  let down := screenToWorld (pointer e0) (state ed) in
  let world := fun e => screenToWorld (pointer e) (state ed) in
  exists ed' it,
    moves es (handleMouseDown newId e0 ed) = Some ed'
    /\ items (state ed') = items (state ed) ++ [it]
    /\ item_id it = newId
    /\ Forall nonNegative (strokePoints it)
    /\ item_x it - pos_x down
       == JS.min_of 0 (map (fun e => pos_x (world e) - pos_x down) es)
    /\ item_y it - pos_y down
       == JS.min_of 0 (map (fun e => pos_y (world e) - pos_y down) es).
Proof.
  intros Htool Hid Hfresh _. cbv zeta.
  destruct (pen_down newId e0 ed Htool) as (it0 & Hd & Hid0 & Hx0 & Hy0 & _ & Htidy).
  destruct (draw_run _ _ _ es it0 _ Hd) as (ed' & it & Hrun & Hits & Hidn & Ht & Hx & Hy);
    try (rewrite Hid0; assumption); try assumption.
  exists ed', it. split; [exact Hrun |]. split; [exact Hits |].
  split; [congruence |]. split.
  - destruct Ht as (path & Hdata & Hpos). unfold strokePoints.
    rewrite Hdata. simpl. now rewrite app_nil_r.
  - set (down := screenToWorld (pointer e0) (state ed)) in *.
    split.
    + rewrite Hx, Hx0.
      rewrite <- (map_map (fun e => pos_x (screenToWorld (pointer e) (state ed)))
                          (fun m => m - pos_x down)).
      rewrite min_of_shift. apply Qplus_inj_r. apply min_of_compat. ring.
    + rewrite Hy, Hy0.
      rewrite <- (map_map (fun e => pos_y (screenToWorld (pointer e) (state ed)))
                          (fun m => m - pos_y down)).
      rewrite min_of_shift. apply Qplus_inj_r. apply min_of_compat. ring.
Qed.

(** ** Stacking order of new items *)

Lemma max_of_upper (zs : list Q) :
  forall z, z <= JS.max_of z zs /\ forall y, In y zs -> y <= JS.max_of z zs.
Proof.
  induction zs as [| a zs IH]; intros z; simpl.
  - split; [lra | intros y []].
  - destruct (IH (Qmax z a)) as [H1 H2].
    pose proof (Q.le_max_l z a). pose proof (Q.le_max_r z a).
    split; [lra |]. intros y [<- | Hy]; [lra | now apply H2].
Qed.

Lemma min_of_lower (zs : list Q) :
  forall z, JS.min_of z zs <= z /\ forall y, In y zs -> JS.min_of z zs <= y.
Proof.
  induction zs as [| a zs IH]; intros z; simpl.
  - split; [lra | intros y []].
  - destruct (IH (Qmin z a)) as [H1 H2].
    pose proof (Q.le_min_l z a). pose proof (Q.le_min_r z a).
    split; [lra |]. intros y [<- | Hy]; [lra | now apply H2].
Qed.

Lemma maxZ_upper (its : list CanvasItem) (i : CanvasItem) :
  In i its -> zIndex i <= maxZ its.
Proof.
  unfold maxZ. destruct its as [| a its]; [intros [] |]. simpl map.
  destruct (max_of_upper (map zIndex its) (zIndex a)) as [H1 H2].
  intros [<- | Hi]; [exact H1 | apply H2; now apply in_map].
Qed.

Lemma minZ_lower (its : list CanvasItem) (i : CanvasItem) :
  In i its -> minZ its <= zIndex i.
Proof.
  unfold minZ. destruct its as [| a its]; [intros [] |]. simpl map.
  destruct (min_of_lower (map zIndex its) (zIndex a)) as [H1 H2].
  intros [<- | Hi]; [exact H1 | apply H2; now apply in_map].
Qed.

Lemma newItemOf_zIndex (win : Window) (newId : string) (type : ItemType)
    (extras : PartialItem) (s : AppState) :
  u_zIndex extras = None ->
  zIndex (newItemOf win newId type extras s)
  = if itemTypeEqb type shape then minZ (items s) - 1 else maxZ (items s) + 1.
Proof.
  intros Hz. unfold newItemOf.
  destruct (itemTypeEqb type todo); simpl; rewrite Hz; reflexivity.
Qed.

(** X1.  [addItem] (toolbar add, image upload, emoji sticker), called with extras
    that set no [zIndex] as all its callers do, appends one item whose zIndex
    is strictly below every earlier item for a shape and strictly above every
    earlier item otherwise. *)
Theorem addItem_stacking (win : Window) (newId : string) (type : ItemType)
    (extras : PartialItem) (ed : Editor) :
  u_zIndex extras = None ->
  exists it,
    items (state (addItem win newId type extras ed)) = items (state ed) ++ [it]
    /\ if itemTypeEqb type shape
       then belowAll (zIndex it) (items (state ed))
       else aboveAll (zIndex it) (items (state ed)).
Proof.
  intros Hz. eexists. split; [reflexivity |].
  rewrite (newItemOf_zIndex _ _ _ _ _ Hz).
  destruct (itemTypeEqb type shape); intros i Hi.
  - pose proof (minZ_lower _ _ Hi). lra.
  - pose proof (maxZ_upper _ _ Hi). lra.
Qed.

(** C9, the failing input.  On the board [oneNoteLeft] (three notes added,
    the first two deleted) the one note left has zIndex 3; a pen pointer-down
    appends a drawing item of zIndex [items.length + 1 = 2], and an inserted
    idea gets the same zIndex 2: both lie strictly below the earlier item,
    where [addItem] would have given 4. *)
Theorem pen_and_idea_below :
  (exists old new,
     items (state (handleMouseDown "d1" (click 100 100) penReady)) = [old; new]
     /\ item_type new = drawing
     /\ zIndex new < zIndex old)
  /\ (exists old new,
        items (state (insertIdeas sampleWindow [mkIdea "i1" "calm" (1 # 2) (1 # 2)]
                        oneNoteLeft)) = [old; new]
        /\ item_type new = text
        /\ zIndex new < zIndex old)
  /\ (exists old new,
        items (state (addItem sampleWindow "n4" text noUpdates oneNoteLeft))
        = [old; new]
        /\ zIndex old < zIndex new).
Proof.
  split; [| split]; do 2 eexists;
    (split; [vm_compute; reflexivity |]); repeat split; reflexivity.
Qed.

(** ** The handlers on the sample board *)

Lemma sample_ids : NoDup (map item_id sampleItems).
Proof.
  repeat constructor; simpl; intuition discriminate.
Qed.

Lemma cascade_delete_sample :
  connections (state (handleKeyDown "Delete" None sampleEditor))
  = [mkConnection "c2" "s" "b" "#4ECDC4"]
  /\ ~ references (mkConnection "c2" "s" "b" "#4ECDC4") "a".
Proof.
  split; [reflexivity |].
  apply (proj1 (proj2 (cascade_delete "a" sampleEditor _
                         (delete_by_key "a" sampleEditor "Delete" None
                            eq_refl eq_refl (or_introl eq_refl))))).
  left. reflexivity.
Defined.

Lemma round_trip_sample :
  ~ scale sampleState == 0
  /\ pos_eq (worldToScreen (screenToWorld (mkPosition 30 40) sampleState) sampleState)
            (mkPosition 30 40)
  /\ pos_eq (screenToWorld (worldToScreen (mkPosition 30 40) sampleState) sampleState)
            (mkPosition 30 40).
Proof.
  split; [discriminate |].
  apply (screen_world_round_trip sampleState (mkPosition 30 40)). discriminate.
Defined.

Lemma wheel_zoom_sample :
  pos_eq (screenToWorld (mkPosition 200 150)
            (state (handleWheel sampleZoom (mkWheelEvent (-100) 200 150) sampleEditor)))
         (screenToWorld (mkPosition 200 150) sampleState).
Proof.
  apply (wheel_zoom_pivot sampleZoom (mkWheelEvent (-100) 200 150) sampleEditor).
  discriminate.
Defined.

Lemma move_sample :
  exists ed',
    moves [click 120 110; click 140 90]
      (handleItemMouseDown (click 100 100) "s" on_move sampleEditor) = Some ed'
    /\ Forall2 (fun i i' =>
                  (inGroup (plainItem "s" shape 0 0 300 300 (-1)) i ->
                     i' = translate
                            (deltas 2 (mkPosition 100 100)
                               [click 120 110; click 140 90]) i)
                  /\ (~ inGroup (plainItem "s" shape 0 0 300 300 (-1)) i -> i' = i))
               sampleItems (items (state ed')).
Proof.
  apply (move_with_children (click 100 100) (plainItem "s" shape 0 0 300 300 (-1))
           [click 120 110; click 140 90] sampleEditor).
  - reflexivity.
  - discriminate.
  - exact sample_ids.
  - left. reflexivity.
  - reflexivity.
  - discriminate.
Defined.

Lemma stroke_scenario :
  exists ed' it,
    moves strokeMoves (handleMouseDown "d1" (click 100 100) emptyPen) = Some ed'
    /\ items (state ed') = [it]
    /\ Forall nonNegative (strokePoints it)
    /\ item_x it - 100 == -10
    /\ item_y it - 100 == -20.
Proof.
  destruct (draw_reflow "d1" (click 100 100) strokeMoves emptyPen)
    as (ed' & it & Hrun & Hits & _ & Hpos & Hx & Hy).
  - reflexivity.
  - discriminate.
  - intros [].
  - discriminate.
  - exists ed', it. split; [exact Hrun |]. split; [exact Hits |].
    split; [exact Hpos |]. split.
    + apply (Qeq_trans _ _ _ Hx). reflexivity.
    + apply (Qeq_trans _ _ _ Hy). reflexivity.
Defined.

Lemma reaction_sample :
  entries "+1" (Nat.iter 3 (reactAdd "+1") (plainItem "a" text 50 50 100 100 1))
  = [mkReaction "+1" 3]
  /\ entries "+1"
       (Nat.iter 3 (reactRemove "+1")
          (Nat.iter 3 (reactAdd "+1") (plainItem "a" text 50 50 100 100 1)))
     = [].
Proof.
  destruct (reaction_counting "+1" (plainItem "a" text 50 50 100 100 1) 3)
    as (Hadd & Hrem & _).
  - reflexivity.
  - lia.
  - split; [exact Hadd | exact Hrem].
Defined.

Lemma connect_sample :
  exists ed1,
    moves [click 700 100]
      (handleItemMouseDown (click 210 220) "a" on_connect sampleEditor) = Some ed1
    /\ let ed' := handleMouseUp "k1" (1 # 2) (click 1010 120) ed1 in
       let p := screenToWorld (pointer (click 1010 120)) sampleState in
       items (state ed') = sampleItems
       /\ dragMode ed' = drag_none
       /\ (forall t, firstTarget "a" p sampleItems t ->
             exists col, In col COLORS
               /\ connections (state ed')
                  = sampleConnections ++ [mkConnection "k1" "a" (item_id t) col])
       /\ ((forall i, In i sampleItems -> ~ isTarget "a" p i) ->
             connections (state ed') = sampleConnections).
Proof.
  apply (connect_release (click 210 220) (click 1010 120) "a" "k1" (1 # 2)
           [click 700 100] sampleEditor).
  - reflexivity.
  - discriminate.
  - discriminate.
  - reflexivity.
  - discriminate.
Defined.

Lemma resize_sample :
  exists ed',
    moves [click (-5000) 9000]
      (handleItemMouseDown (click 300 300) "a" on_resize sampleEditor) = Some ed'
    /\ forall i, In i (items (state ed')) -> item_id i = "a"%string -> floored i.
Proof.
  apply (resize_floor (click 300 300) "a" [click (-5000) 9000] sampleEditor).
  - reflexivity.
  - discriminate.
  - discriminate.
  - discriminate.
Defined.

Lemma resize_frame_sample :
  exists ed',
    handleMouseMove (click 310 280) resizingA = Some ed'
    /\ connections (state ed') = connections (state resizingA)
    /\ pan (state ed') = pan (state resizingA)
    /\ scale (state ed') = scale (state resizingA)
    /\ selectedIds (state ed') = selectedIds (state resizingA)
    /\ selectionBox (state ed') = selectionBox (state resizingA)
    /\ Forall2 (fun i i' =>
                  resized i i'
                  /\ (activeItemId resizingA <> Some (item_id i) -> i' = i))
               (items (state resizingA)) (items (state ed')).
Proof.
  apply (resize_frame (click 310 280) resizingA).
  - reflexivity.
  - discriminate.
Defined.

(** ** The reaction handlers act on the target item as [reactAdd], [reactRemove] *)

Lemma handleEmojiSelect_reacts (win : Window) (newId e target : string)
    (x y : Q) (ed : Editor) :
  emojiPicker ed = Some (mkEmojiPicker pick_reaction (Some target) x y) ->
  target <> ""%string ->
  items (state (handleEmojiSelect win newId e ed))
  = map (fun i => if String.eqb (item_id i) target then reactAdd e i else i)
        (items (state ed))
  /\ emojiPicker (handleEmojiSelect win newId e ed) = None.
Proof.
  intros Hpick Ht. unfold handleEmojiSelect. rewrite Hpick.
  cbn [picker_type targetId JS.truthy].
  apply String.eqb_neq in Ht. rewrite Ht. split; reflexivity.
Qed.

Lemma handleReactionClick_removes (item : CanvasItem) (e : string) (ed : Editor) :
  NoDup (map item_id (items (state ed))) ->
  In item (items (state ed)) ->
  items (state (handleReactionClick item e ed))
  = map (fun i => if String.eqb (item_id i) (item_id item)
                  then reactRemove e i else i)
        (items (state ed)).
Proof.
  intros Hnd Hin. unfold handleReactionClick.
  assert (Hsame : forall i, In i (items (state ed)) ->
            String.eqb (item_id i) (item_id item) = true -> i = item).
  { intros i Hi Heq. apply String.eqb_eq in Heq.
    now apply (NoDup_map_inj item_id (items (state ed))). }
  destruct (removeReaction e item) as [rs |] eqn:Hrem; simpl.
  - apply map_ext_in. intros i Hi.
    destruct (String.eqb (item_id i) (item_id item)) eqn:Heq; [| reflexivity].
    rewrite (Hsame i Hi Heq). unfold reactRemove. now rewrite Hrem.
  - rewrite <- (map_id (items (state ed))) at 1. apply map_ext_in. intros i Hi.
    destruct (String.eqb (item_id i) (item_id item)) eqn:Heq; [| reflexivity].
    rewrite (Hsame i Hi Heq). unfold reactRemove. now rewrite Hrem.
Qed.

Lemma addItem_stacking_sample :
  exists it,
    items (state (addItem sampleWindow "z" shape shapeExtras sampleEditor))
    = sampleItems ++ [it]
    /\ belowAll (zIndex it) sampleItems.
Proof.
  apply (addItem_stacking sampleWindow "z" shape shapeExtras sampleEditor).
  reflexivity.
Defined.

(** ** Connector geometry *)

Lemma half_nonneg (a : Q) : 0 <= a -> 0 <= a / 2.
Proof. intros H. apply Qle_shift_div_l; lra. Qed.

Lemma Qabs_of (x w : Q) : 0 <= w -> x == w \/ x == - w -> Qabs x == w.
Proof.
  intros Hw [H | H]; rewrite H.
  - now apply Qabs_pos.
  - rewrite Qabs_opp. now apply Qabs_pos.
Qed.

Lemma edge_distance (d w : Q) :
  ~ d == 0 -> 0 <= w ->
  0 <= (if JS.ltb 0 d then w else - w) / d
  /\ Qabs ((if JS.ltb 0 d then w else - w) / d * d) == w.
Proof.
  intros Hd Hw. destruct (JS.ltb 0 d) eqn:Hs.
  - apply ltb_spec in Hs. split.
    + apply Qle_shift_div_l; lra.
    + apply Qabs_of; [assumption | left; now field].
  - apply ltb_false in Hs. assert (Hneg : d < 0) by lra. split.
    + setoid_replace (- w / d) with (w / - d) by (field; lra).
      apply Qle_shift_div_l; lra.
    + apply Qabs_of; [assumption | right; now field].
Qed.






Lemma hitDistance_level (dx dy w h : Q) :
  dy == 0 -> ~ dx == 0 -> 0 <= w -> 0 <= h ->
  hitDistance dx dy w h = Some ((if JS.ltb 0 dx then w else - w) / dx).
Proof.
  intros Hy Hx Hw Hh. unfold hitDistance.
  replace (Qeq_bool dy 0) with true by (symmetry; now apply Qeq_bool_iff).
  replace (Qeq_bool dx 0) with false.
  - cbn [negb]. destruct (edge_distance dx w Hx Hw) as [Ht _].
    set (tx := (if JS.ltb 0 dx then w else - w) / dx) in *.
    replace (JS.geb tx 0) with true by (symmetry; now apply geb_spec).
    replace (JS.leb (Qabs (tx * dy)) h) with true; [reflexivity |].
    symmetry. apply leb_spec. rewrite Hy, Qmult_0_r. exact Hh.
  - symmetry. destruct (Qeq_bool dx 0) eqn:E; [| reflexivity].
    apply Qeq_bool_iff in E. contradiction.
Qed.


(** Towards a target level with the centre, the intersection is the middle of
    the facing vertical edge. *)
Lemma level_intersection (center target : Position) (rect : Rect) :
  0 <= rect_width rect -> 0 <= rect_height rect ->
  pos_y target == pos_y center ->
  ~ pos_x target == pos_x center ->
  pos_eq (getRectIntersection center target rect)
         (mkPosition
            (pos_x center
             + (if JS.ltb (pos_x center) (pos_x target)
                then rect_width rect / 2 else - (rect_width rect / 2)))
            (pos_y center)).
Proof.
  intros Hw Hh Hy Hx. unfold getRectIntersection.
  set (dx := pos_x target - pos_x center).
  set (dy := pos_y target - pos_y center).
  assert (Hdy : dy == 0) by (unfold dy; lra).
  assert (Hdx : ~ dx == 0) by (unfold dx; lra).
  pose proof (half_nonneg _ Hw) as Hw2.
  pose proof (half_nonneg _ Hh) as Hh2.
  rewrite (hitDistance_level dx dy _ _ Hdy Hdx Hw2 Hh2).
  replace (Qeq_bool dx 0) with false.
  - cbn [andb]. unfold pos_eq. cbn [pos_x pos_y].
    assert (Hsign : JS.ltb 0 dx = JS.ltb (pos_x center) (pos_x target)).
    { destruct (JS.ltb (pos_x center) (pos_x target)) eqn:E.
      - apply ltb_spec in E. apply ltb_spec. unfold dx. lra.
      - apply ltb_false in E. apply ltb_false. unfold dx. lra. }
    rewrite Hsign. split.
    + field. assumption.
    + rewrite Hdy. ring.
  - symmetry. destruct (Qeq_bool dx 0) eqn:E; [| reflexivity].
    apply Qeq_bool_iff in E. contradiction.
Qed.


(** X4.  Between two items whose centres are level, the source to the left, the
    curve runs from the middle of the source's right edge to the middle of the
    target's left edge. *)
Theorem getPath_level (conn : Connection) (s : AppState) (from to : CanvasItem) :
  find (fun i => String.eqb (item_id i) (fromId conn)) (items s) = Some from ->
  find (fun i => String.eqb (item_id i) (toId conn)) (items s) = Some to ->
  sized from -> sized to ->
  pos_y (centerOf from) == pos_y (centerOf to) ->
  pos_x (centerOf from) < pos_x (centerOf to) ->
  exists c,
    getPath conn s = Some c
    /\ pos_eq (curve_start c)
              (mkPosition (item_x from + width from) (pos_y (centerOf from)))
    /\ pos_eq (curve_end c)
              (mkPosition (item_x to) (pos_y (centerOf to))).
Proof.
  intros Hf Ht [Hfw Hfh] [Htw Hth] Hy Hx. unfold getPath. rewrite Hf, Ht.
  eexists. split; [reflexivity |]. cbn [curve_start curve_end].
  split.
  - destruct (level_intersection (centerOf from) (centerOf to) (rectOf from))
      as [H1 H2]; try assumption; [now symmetry | lra |].
    replace (JS.ltb (pos_x (centerOf from)) (pos_x (centerOf to))) with true in *
      by (symmetry; now apply ltb_spec).
    split; cbn [pos_x pos_y] in *; [| exact H2].
    rewrite H1. simpl. field.
  - destruct (level_intersection (centerOf to) (centerOf from) (rectOf to))
      as [H1 H2]; try assumption; [lra |].
    replace (JS.ltb (pos_x (centerOf to)) (pos_x (centerOf from))) with false in *
      by (symmetry; apply ltb_false; lra).
    split; cbn [pos_x pos_y] in *; [| exact H2].
    rewrite H1. simpl. field.
Qed.



Lemma getPath_level_sample :
  exists c,
    getPath (mkConnection "c" "l" "r" "#FF6B6B") twoBoxes = Some c
    /\ pos_eq (curve_start c) (mkPosition 100 50)
    /\ pos_eq (curve_end c) (mkPosition 300 50).
Proof.
  destruct (getPath_level (mkConnection "c" "l" "r" "#FF6B6B") twoBoxes
              (plainItem "l" text 0 0 100 100 1) (plainItem "r" text 300 0 100 100 2))
    as (c & Hc & [Hsx Hsy] & [Hex Hey]).
  - reflexivity.
  - reflexivity.
  - split; discriminate.
  - split; discriminate.
  - reflexivity.
  - reflexivity.
  - exists c. split; [exact Hc |]. split; split.
    + apply (Qeq_trans _ _ _ Hsx). reflexivity.
    + apply (Qeq_trans _ _ _ Hsy). reflexivity.
    + apply (Qeq_trans _ _ _ Hex). reflexivity.
    + apply (Qeq_trans _ _ _ Hey). reflexivity.
Defined.

(** ** Pan *)

(** With a tool other than the pen, [handleMouseDown] closes the emoji picker
    if need be and then branches on the tool and the button. *)
Lemma mouseDown_branches (newId : string) (e : MouseEvent) (ed : Editor) :
  toolMode ed <> tool_pen ->
  exists ed0,
    state ed0 = state ed /\ toolMode ed0 = toolMode ed
    /\ handleMouseDown newId e ed
       = if (match toolMode ed with tool_hand => true | _ => false end)
            || (button e =? 1)%Z
         then setDragStart (Some (pointer e)) (setDragMode drag_pan ed0)
         else if (button e =? 0)%Z then
           if onControl e then ed0
           else
             setState (fun prev =>
                 mkAppState (items prev) (connections prev) (pan prev) (scale prev)
                   [] (Some (screenToWorld (pointer e) (state ed),
                             screenToWorld (pointer e) (state ed))))
               (setDragStart (Some (screenToWorld (pointer e) (state ed)))
                  (setDragMode drag_select ed0))
         else ed0.
Proof.
  intros Hpen. unfold handleMouseDown.
  destruct (emojiPicker ed) as [picker |]; [destruct (inEmojiPicker e) |]; cbn [negb].
  - exists ed. repeat split. destruct (toolMode ed); [reflexivity .. | contradiction].
  - exists (setEmojiPicker None ed). repeat split.
    cbn [toolMode setEmojiPicker state].
    destruct (toolMode ed); [reflexivity .. | contradiction].
  - exists ed. repeat split. destruct (toolMode ed); [reflexivity .. | contradiction].
Qed.

Lemma pan_run (es : list MouseEvent) :
  forall (start : Position) (ed : Editor),
    panning start ed ->
    exists ed',
      moves es ed = Some ed'
      /\ dragMode ed' = drag_pan
      /\ pos_x (pan (state ed'))
         == pos_x (pan (state ed)) + (pos_x (lastPosition start es) - pos_x start)
      /\ pos_y (pan (state ed'))
         == pos_y (pan (state ed)) + (pos_y (lastPosition start es) - pos_y start)
      /\ items (state ed') = items (state ed)
      /\ connections (state ed') = connections (state ed)
      /\ scale (state ed') = scale (state ed)
      /\ selectedIds (state ed') = selectedIds (state ed).
Proof.
  induction es as [| e es IH]; intros start ed [Hmode Hstart].
  - exists ed. simpl. repeat split; try assumption; try reflexivity; ring.
  - simpl moves. unfold handleMouseMove, dragStep. rewrite Hmode, Hstart. simpl.
    match goal with |- context [moves es ?x] =>
      destruct (IH (pointer e) x) as (ed' & Hrun & Hm & Hx & Hy & Hi & Hc & Hs & Hsel)
    end.
    { split; simpl; [assumption | reflexivity]. }
    exists ed'. split; [exact Hrun |]. simpl in *.
    repeat split; try assumption.
    + rewrite Hx. ring.
    + rewrite Hy. ring.
Qed.

(** X5.  A pan gesture (pointer-down on the canvas with the hand tool, or with the
    middle button under the select tool, any run of pointer-moves, release)
    never throws and adds to the pan the screen-space displacement of the
    pointer from the down-point to its last position, whatever the scale; it
    leaves the items, the connections, the scale and the selection as they
    were and ends idle. *)
Theorem pan_gesture (newId connId : string) (r : Q) (e0 up : MouseEvent)
    (es : list MouseEvent) (ed : Editor) :
  toolMode ed = tool_hand \/ (toolMode ed = tool_select /\ button e0 = 1%Z) ->
  exists ed1,
    moves es (handleMouseDown newId e0 ed) = Some ed1
    /\ let ed' := handleMouseUp connId r up ed1 in
       pos_x (pan (state ed'))
       == pos_x (pan (state ed))
          + (pos_x (lastPosition (pointer e0) es) - clientX e0)
       /\ pos_y (pan (state ed'))
          == pos_y (pan (state ed))
             + (pos_y (lastPosition (pointer e0) es) - clientY e0)
       /\ items (state ed') = items (state ed)
       /\ connections (state ed') = connections (state ed)
       /\ scale (state ed') = scale (state ed)
       /\ selectedIds (state ed') = selectedIds (state ed)
       /\ dragMode ed' = drag_none.
Proof.
  intros Htool.
  destruct (mouseDown_branches newId e0 ed) as (ed0 & Hst & _ & Hdown).
  { destruct Htool as [H | [H _]]; rewrite H; discriminate. }
  assert (Hpan : handleMouseDown newId e0 ed
                 = setDragStart (Some (pointer e0)) (setDragMode drag_pan ed0)).
  { rewrite Hdown. destruct Htool as [H | [H Hb]]; rewrite H; [reflexivity |].
    rewrite Hb. reflexivity. }
  rewrite Hpan.
  destruct (pan_run es (pointer e0) (setDragStart (Some (pointer e0))
                                       (setDragMode drag_pan ed0)))
    as (ed1 & Hrun & Hm & Hx & Hy & Hi & Hc & Hs & Hsel).
  { split; reflexivity. }
  exists ed1. split; [exact Hrun |]. cbv zeta.
  unfold handleMouseUp, connectUp. rewrite Hm. simpl in *. rewrite Hst in *.
  repeat split; assumption.
Qed.

(** ** Rubber-band selection *)

Lemma selectStep_selected (a b : Position) (st : AppState) (id : string) :
  In id (selectedIds (selectStep a b st))
  <-> exists i, In i (items st) /\ item_id i = id /\ centreWithin a b i.
Proof.
  unfold selectStep. cbn [selectedIds]. rewrite in_map_iff.
  split; intros (i & H1 & H2).
  - apply filter_In in H2. destruct H2 as [Hin Hb].
    rewrite !andb_true_iff, !geb_spec, !leb_spec in Hb.
    exists i. repeat split; try assumption; apply Hb.
  - destruct H2 as [Hid Hc]. exists i. split; [assumption |].
    apply filter_In. split; [assumption |].
    rewrite !andb_true_iff, !geb_spec, !leb_spec.
    unfold centreWithin, centerOf in Hc. cbn [pos_x pos_y] in Hc. tauto.
Qed.

Lemma select_run (anchor : Position) (es : list MouseEvent) :
  forall (e : MouseEvent) (ed : Editor),
    selecting anchor ed ->
    exists ed',
      moves (e :: es) ed = Some ed'
      /\ dragMode ed' = drag_select
      /\ state ed'
         = selectStep anchor
             (screenToWorld (lastPosition (pointer e) es) (state ed)) (state ed).
Proof.
  induction es as [| e' es IH]; intros e ed [Hmode Hstart].
  - eexists. simpl moves. unfold handleMouseMove, dragStep.
    rewrite Hmode, Hstart. cbn [dragModeEqb]. split; [reflexivity |].
    split; [exact Hmode | reflexivity].
  - change (moves (e :: e' :: es) ed)
      with (match handleMouseMove e ed with
            | None => None | Some ed1 => moves (e' :: es) ed1 end).
    unfold handleMouseMove at 1, dragStep. rewrite Hmode, Hstart.
    cbn [dragModeEqb].
    match goal with |- context [moves (e' :: es) ?x] =>
      destruct (IH e' x) as (ed' & Hrun & Hm & Hst)
    end.
    { split; [exact Hmode | exact Hstart]. }
    exists ed'. split; [exact Hrun |]. split; [exact Hm |].
    rewrite Hst. reflexivity.
Qed.

(** X6.  A rubber-band gesture on a viewport of non-zero scale (primary button down
    on the empty canvas with the select tool, any run of pointer-moves,
    release) never throws.  Without a move it clears the selection; with
    moves, an id is selected exactly when some item of that id has its centre
    in the rectangle spanned by the world points of the pointer-down and of
    the last move, the moves in between playing no part.  Either way the
    selection box is gone after release, the items, connections, pan and scale
    are as before and the gesture is over. *)
Theorem rubber_band (newId connId : string) (r : Q) (e0 up : MouseEvent)
    (es : list MouseEvent) (ed : Editor) :
  toolMode ed = tool_select -> button e0 = 0%Z -> onControl e0 = false ->
  ~ scale (state ed) == 0 ->
  exists ed1,
    moves es (handleMouseDown newId e0 ed) = Some ed1
    /\ let ed' := handleMouseUp connId r up ed1 in
       let a := screenToWorld (pointer e0) (state ed) in
       let b := screenToWorld (lastPosition (pointer e0) es) (state ed) in
       (es = [] -> selectedIds (state ed') = [])
       /\ (es <> [] ->
           forall id, In id (selectedIds (state ed'))
             <-> exists i, In i (items (state ed)) /\ item_id i = id
                           /\ centreWithin a b i)
       /\ selectionBox (state ed') = None
       /\ items (state ed') = items (state ed)
       /\ connections (state ed') = connections (state ed)
       /\ pan (state ed') = pan (state ed)
       /\ scale (state ed') = scale (state ed)
       /\ dragMode ed' = drag_none.
Proof.
  intros Htool Hb Hctl _.
  destruct (mouseDown_branches newId e0 ed) as (ed0 & Hst & _ & Hdown).
  { rewrite Htool. discriminate. }
  rewrite Htool, Hb, Hctl in Hdown. cbn [orb Z.eqb] in Hdown. rewrite Hdown.
  set (a := screenToWorld (pointer e0) (state ed)) in *.
  destruct es as [| e es].
  - eexists. split; [reflexivity |]. cbv zeta.
    unfold handleMouseUp, connectUp. simpl. rewrite Hst.
    split; [reflexivity |]. split; [intros H; contradiction |].
    repeat split.
  - match goal with |- context [moves (e :: es) ?x] =>
      destruct (select_run a es e x) as (ed1 & Hrun & Hm & Hs)
    end.
    { split; reflexivity. }
    set (b := screenToWorld (lastPosition (pointer e) es) (state ed)).
    set (opened := mkAppState (items (state ed)) (connections (state ed))
                     (pan (state ed)) (scale (state ed)) [] (Some (a, a))).
    assert (Hs' : state ed1 = selectStep a b opened).
    { rewrite Hs. simpl. rewrite Hst. reflexivity. }
    exists ed1. split; [exact Hrun |]. cbv zeta.
    unfold handleMouseUp, connectUp. rewrite Hm. cbn [state setState setDragMode
      setDragStart setActiveItemId setTempConnection setMovingChildIds dragMode].
    rewrite Hs'.
    split; [intros H; discriminate H |].
    split; [| repeat split].
    intros _ id.
    change (lastPosition (pointer e0) (e :: es)) with (lastPosition (pointer e) es).
    exact (selectStep_selected a b opened id).
Qed.

(** ** Connections stay attached *)


(** ** Layering *)

Lemma updateItem_items (id : string) (u : PartialItem) (ed : Editor) :
  items (state (updateItem id u ed))
  = map (fun i => if String.eqb (item_id i) id then spread i u else i)
        (items (state ed)).
Proof. reflexivity. Qed.

(** X8.  With an item selected, [bringToFront] gives the first selected item (and
    any item sharing its id) a zIndex strictly above that of every other
    item, and [sendToBack] one strictly below; the other items are
    unchanged. *)
Theorem layering (ed : Editor) (sel : CanvasItem) :
  selectedItem (state ed) = Some sel ->
  Forall2 (fun i i' =>
             if String.eqb (item_id i) (item_id sel)
             then i' = spread i (zUpdate (zIndex i')) /\ item_id i' = item_id sel
                  /\ aboveAll (zIndex i')
                       (filter (fun j => negb (String.eqb (item_id j) (item_id sel)))
                          (items (state (bringToFront ed))))
             else i' = i)
          (items (state ed)) (items (state (bringToFront ed)))
  /\ Forall2 (fun i i' =>
                if String.eqb (item_id i) (item_id sel)
                then i' = spread i (zUpdate (zIndex i')) /\ item_id i' = item_id sel
                     /\ belowAll (zIndex i')
                          (filter (fun j => negb (String.eqb (item_id j) (item_id sel)))
                             (items (state (sendToBack ed))))
                else i' = i)
             (items (state ed)) (items (state (sendToBack ed))).
Proof.
  intros Hsel. unfold bringToFront, sendToBack. rewrite Hsel.
  rewrite !updateItem_items. split.
  - apply Forall2_map_self. intros a Ha.
    destruct (String.eqb (item_id a) (item_id sel)) eqn:Heq; [| reflexivity].
    split; [reflexivity |]. split; [now apply String.eqb_eq in Heq |].
    intros j Hj. apply filter_In in Hj. destruct Hj as [Hj Hne].
    apply in_map_iff in Hj. destruct Hj as (k & Hk & Hkin).
    destruct (String.eqb (item_id k) (item_id sel)) eqn:Hks; subst j.
    + simpl in Hne. rewrite Hks in Hne. discriminate.
    + pose proof (maxZ_upper _ _ Hkin). simpl. lra.
  - apply Forall2_map_self. intros a Ha.
    destruct (String.eqb (item_id a) (item_id sel)) eqn:Heq; [| reflexivity].
    split; [reflexivity |]. split; [now apply String.eqb_eq in Heq |].
    intros j Hj. apply filter_In in Hj. destruct Hj as [Hj Hne].
    apply in_map_iff in Hj. destruct Hj as (k & Hk & Hkin).
    destruct (String.eqb (item_id k) (item_id sel)) eqn:Hks; subst j.
    + simpl in Hne. rewrite Hks in Hne. discriminate.
    + pose proof (minZ_lower _ _ Hkin). simpl. lra.
Qed.

(** ** Zoom *)

Lemma zoom_in_range (Math_exp : Q -> Q) (z : Zoom) (ed : Editor) :
  scaleInRange (state ed) -> scaleInRange (state (zoom Math_exp z ed)).
Proof.
  intros [Hlo Hhi]. destruct z as [e | |]; unfold scaleInRange; simpl.
  - apply newScale_positive.
  - destruct (Q.min_spec 2 (scale (state ed) + (1 # 10))) as [[Hc H] | [Hc H]];
      rewrite H; split; lra.
  - destruct (Q.max_spec (2 # 10) (scale (state ed) - (1 # 10))) as [[Hc H] | [Hc H]];
      rewrite H; split; lra.
Qed.

Lemma zoom_frame (Math_exp : Q -> Q) (z : Zoom) (ed : Editor) :
  items (state (zoom Math_exp z ed)) = items (state ed)
  /\ connections (state (zoom Math_exp z ed)) = connections (state ed)
  /\ selectedIds (state (zoom Math_exp z ed)) = selectedIds (state ed).
Proof. destruct z; repeat split. Qed.

(** X9.  Whatever the wheel events and zoom-button clicks, and whatever [Math.exp]
    returns, a scale that starts within [0.1, 5] stays within [0.1, 5], so it
    never reaches zero; zooming changes neither the items, nor the
    connections, nor the selection. *)
Theorem zoom_stays_in_range (Math_exp : Q -> Q) (zs : list Zoom) (ed : Editor) :
  scaleInRange (state ed) ->
  scaleInRange (state (zooms Math_exp zs ed))
  /\ ~ scale (state (zooms Math_exp zs ed)) == 0
  /\ items (state (zooms Math_exp zs ed)) = items (state ed)
  /\ connections (state (zooms Math_exp zs ed)) = connections (state ed)
  /\ selectedIds (state (zooms Math_exp zs ed)) = selectedIds (state ed).
Proof.
  revert ed. induction zs as [| z zs IH]; intros ed Hr.
  - simpl. repeat split; try apply Hr. destruct Hr. lra.
  - unfold zooms in *. simpl.
    destruct (IH (zoom Math_exp z ed) (zoom_in_range Math_exp z ed Hr))
      as (H1 & H2 & H3 & H4 & H5).
    destruct (zoom_frame Math_exp z ed) as (F1 & F2 & F3).
    repeat split; try apply H1; try assumption; congruence.
Qed.

(** ** The box of a freehand stroke *)

Lemma grow_upper (ps : list Position) :
  forall b,
    (maxX b <= maxX (fold_left growBounds ps b)
     /\ forall p, In p ps -> pos_x p <= maxX (fold_left growBounds ps b))
    /\ (maxY b <= maxY (fold_left growBounds ps b)
        /\ forall p, In p ps -> pos_y p <= maxY (fold_left growBounds ps b)).
Proof.
  induction ps as [| q ps IH]; intros b; simpl.
  - repeat split; try lra; intros p [].
  - destruct (IH (growBounds b q)) as [[Hx1 Hx2] [Hy1 Hy2]].
    assert (Hgx : maxX b <= maxX (growBounds b q) /\ pos_x q <= maxX (growBounds b q)).
    { simpl. destruct (JS.ltb (maxX b) (pos_x q)) eqn:E.
      - apply ltb_spec in E. lra.
      - apply ltb_false in E. lra. }
    assert (Hgy : maxY b <= maxY (growBounds b q) /\ pos_y q <= maxY (growBounds b q)).
    { simpl. destruct (JS.ltb (maxY b) (pos_y q)) eqn:E.
      - apply ltb_spec in E. lra.
      - apply ltb_false in E. lra. }
    repeat split; try lra.
    + intros p [<- | Hp]; [lra | now apply Hx2].
    + intros p [<- | Hp]; [lra | now apply Hy2].
Qed.

Lemma or_num_one (v : Q) :
  0 <= v -> 0 < JS.or_num v 1 /\ v <= JS.or_num v 1.
Proof.
  intros Hv. unfold JS.or_num. destruct (Qeq_bool v 0) eqn:E.
  - apply Qeq_bool_iff in E. lra.
  - apply Qeq_bool_neq in E. split; [| lra].
    destruct (Qle_lt_or_eq _ _ Hv) as [H | H]; [assumption |].
    exfalso. apply E. now symmetry.
Qed.

(** One append-and-reflow on a stroke that lies in its box. *)
Lemma reflow_snug (mouseX mouseY : Q) (it : CanvasItem) (path : DrawingPath) :
  drawingData it = Some [path] ->
  Forall (withinBox it) (points path) ->
  0 <= width it -> 0 <= height it ->
  let it' := reflow mouseX mouseY it [path] 0 path in
  snugStroke it' /\ item_id it' = item_id it
  /\ 0 < width it' /\ 0 < height it'.
Proof.
  intros Hdata Hbox Hw Hh. cbv zeta. unfold reflow.
  set (np := mkPosition (mouseX - item_x it) (mouseY - item_y it)).
  set (b0 := mkBounds 0 0 (width it) (height it)).
  assert (Hpos : Forall nonNegative (points path)).
  { eapply Forall_impl; [| exact Hbox]. intros p [[H1 _] [H2 _]]. now split. }
  rewrite fold_left_app. simpl fold_left.
  destruct (grow_nonNegative (points path) Hpos b0) as [Hbx Hby];
    [simpl; lra | simpl; lra |].
  destruct (grow_upper (points path) b0) as [[Hux _] [Huy _]].
  change (maxX b0) with (width it) in Hux.
  change (maxY b0) with (height it) in Huy.
  set (b := fold_left growBounds (points path) b0) in *.
  assert (Hmx : minX (growBounds b np) = negPart (mouseX - item_x it)).
  { simpl. rewrite Hbx. reflexivity. }
  assert (Hmy : minY (growBounds b np) = negPart (mouseY - item_y it)).
  { simpl. rewrite Hby. reflexivity. }
  assert (HMx : maxX b <= maxX (growBounds b np) /\ pos_x np <= maxX (growBounds b np)).
  { simpl. destruct (JS.ltb (maxX b) (mouseX - item_x it)) eqn:E.
    - apply ltb_spec in E. lra.
    - apply ltb_false in E. lra. }
  assert (HMy : maxY b <= maxY (growBounds b np) /\ pos_y np <= maxY (growBounds b np)).
  { simpl. destruct (JS.ltb (maxY b) (mouseY - item_y it)) eqn:E.
    - apply ltb_spec in E. lra.
    - apply ltb_false in E. lra. }
  rewrite Hmx, Hmy, !negPart_idem.
  destruct (negPart_spec (mouseX - item_x it)) as (Hx0 & Hxv & _).
  destruct (negPart_spec (mouseY - item_y it)) as (Hy0 & Hyv & _).
  set (W := maxX (growBounds b np) - negPart (mouseX - item_x it)).
  set (H := maxY (growBounds b np) - negPart (mouseY - item_y it)).
  assert (HW : 0 <= W) by (unfold W; lra).
  assert (HH : 0 <= H) by (unfold H; lra).
  destruct (or_num_one W HW) as [HW1 HW2].
  destruct (or_num_one H HH) as [HH1 HH2].
  split; [| split; [reflexivity | split; assumption]].
  eexists. split; [reflexivity |]. cbn [points width height set_drawing].
  split; [| split; lra].
  rewrite map_app. apply Forall_app. split.
  - rewrite Forall_map. eapply Forall_impl; [| exact Hbox].
    intros p [[Hp1 Hp2] [Hp3 Hp4]]. unfold withinBox.
    cbn [pos_x pos_y width height set_drawing].
    unfold W, H in *. repeat split; lra.
  - constructor; [| constructor]. unfold withinBox.
    cbn [pos_x pos_y map width height set_drawing].
    unfold W, H, np in *. cbn [pos_x pos_y] in *. repeat split; lra.
Qed.

Lemma snug_run (before : list CanvasItem) (pn : Position) (sc : Q)
    (es : list MouseEvent) :
  forall (it : CanvasItem) (ed : Editor),
    drawingOn before pn sc it ed ->
    item_id it <> ""%string ->
    ~ In (item_id it) (map item_id before) ->
    snugStroke it ->
    exists ed' it',
      moves es ed = Some ed'
      /\ items (state ed') = before ++ [it']
      /\ snugStroke it'
      /\ (es = [] -> it' = it)
      /\ (es <> [] -> 0 < width it' /\ 0 < height it').
Proof.
  induction es as [| e es IH]; intros it ed Hd Hid Hfresh Hsnug.
  - exists ed, it. destruct Hd as (_ & _ & _ & Hits & _).
    repeat split; try assumption; try reflexivity; contradiction.
  - destruct Hd as (Hmode & Hact & Hstart & Hits & Hpan & Hsc).
    destruct Hsnug as (path & Hdata & Hbox & Hw & Hh).
    destruct (dragStart ed) as [start |] eqn:Hs; [| contradiction].
    set (mouseX := (clientX e - pos_x pn) / sc).
    set (mouseY := (clientY e - pos_y pn) / sc).
    pose proof (reflow_snug mouseX mouseY it path Hdata Hbox Hw Hh) as Hre.
    cbv zeta in Hre. set (it1 := reflow mouseX mouseY it [path] 0 path) in *.
    destruct Hre as (Hsnug1 & Hid1 & Hw1 & Hh1).
    assert (Hstep : handleMouseMove e ed
                    = Some (setState (fun prev => set_items prev (before ++ [it1])) ed)).
    { unfold handleMouseMove. rewrite Hmode, Hact, Hs, Hits, Hpan, Hsc.
      apply String.eqb_neq in Hid. cbn [JS.truthy]. rewrite Hid. cbn [negb].
      fold mouseX mouseY.
      rewrite (mapThrow_app _ before [it] before [it1]); [reflexivity | |].
      - now apply mapThrow_others.
      - simpl. unfold drawItem. rewrite String.eqb_refl, Hdata. reflexivity. }
    destruct (IH it1 (setState (fun prev => set_items prev (before ++ [it1])) ed))
      as (ed' & it' & Hrun & Hits' & Hsnug' & Hnil & Hcons).
    { unfold drawingOn. rewrite Hid1. cbn [dragMode activeItemId dragStart
        state setState items pan scale set_items]. rewrite Hs.
      repeat split; try assumption; discriminate. }
    { congruence. }
    { now rewrite Hid1. }
    { exact Hsnug1. }
    exists ed', it'. simpl moves. rewrite Hstep.
    split; [exact Hrun |]. split; [exact Hits' |]. split; [exact Hsnug' |].
    split; [intros H; discriminate H |]. intros _.
    destruct es as [| e' es']; [rewrite (Hnil eq_refl); now split |].
    apply Hcons. discriminate.
Qed.

(** X10.  In a draw gesture on a viewport of non-zero scale (pen pointer-down with
    a fresh, non-empty id, then any run of pointer-moves), every stored point
    of the drawing item lies within the item's box, from 0 to its width and
    from 0 to its height; after at least one move the width and the height
    are positive, while a pen click without a move leaves an item of size
    0 by 0. *)
Theorem stroke_in_box (newId : string) (e0 : MouseEvent) (es : list MouseEvent)
    (ed : Editor) :
  toolMode ed = tool_pen ->
  newId <> ""%string ->
  ~ In newId (map item_id (items (state ed))) ->
  ~ scale (state ed) == 0 ->
  exists ed' it,
    moves es (handleMouseDown newId e0 ed) = Some ed'
    /\ items (state ed') = items (state ed) ++ [it]
    /\ Forall (withinBox it) (strokePoints it)
    /\ (es = [] -> width it = 0 /\ height it = 0)
    /\ (es <> [] -> 0 < width it /\ 0 < height it).
Proof.
  intros Htool Hid Hfresh _.
  destruct (pen_down newId e0 ed Htool) as (it0 & Hd & Hid0 & Hx0 & Hy0 & _ & Htidy).
  assert (Hsize : width it0 = 0 /\ height it0 = 0).
  { destruct Hd as (_ & _ & _ & Hits & _).
    unfold handleMouseDown in Hits.
    destruct (emojiPicker ed) as [picker |]; [destruct (inEmojiPicker e0) |];
      cbn [negb toolMode setEmojiPicker] in Hits; rewrite Htool in Hits;
      simpl in Hits; apply app_inv_head in Hits; injection Hits as <-;
      split; reflexivity. }
  assert (Hsnug : snugStroke it0).
  { destruct Htidy as (path & Hdata & Hpos). exists path.
    destruct Hsize as [Hw Hh].
    assert (Hpts : points path = [mkPosition 0 0]).
    { destruct Hd as (_ & _ & _ & Hits & _).
      unfold handleMouseDown in Hits.
      destruct (emojiPicker ed) as [picker |]; [destruct (inEmojiPicker e0) |];
        cbn [negb toolMode setEmojiPicker] in Hits; rewrite Htool in Hits;
        simpl in Hits; apply app_inv_head in Hits; injection Hits as <-;
        simpl in Hdata; injection Hdata as <-; reflexivity. }
    split; [assumption |]. rewrite Hpts, Hw, Hh.
    split; [| split; lra].
    constructor; [| constructor]. unfold withinBox. rewrite Hw, Hh. simpl.
    repeat split; lra. }
  destruct (snug_run _ _ _ es it0 _ Hd) as (ed' & it & Hrun & Hits & Hs & Hnil & Hcons);
    try (rewrite Hid0; assumption); try assumption.
  exists ed', it. split; [exact Hrun |]. split; [exact Hits |].
  split; [| split].
  - destruct Hs as (path & Hdata & Hbox & _). unfold strokePoints.
    rewrite Hdata. simpl. now rewrite app_nil_r.
  - intros H. rewrite (Hnil H). exact Hsize.
  - exact Hcons.
Qed.

(** ** To-do lists *)

Lemma spread_todos (item : CanvasItem) (t : option (list TodoItem)) :
  spread item (todosUpdate t)
  = mkCanvasItem (item_id item) (item_type item) (item_x item) (item_y item)
      (width item) (height item) (content item) t (color item) (textColor item)
      (fontFamily item) (fontWeight item) (fontStyle item) (opacity item)
      (shapeType item) (drawingData item) (zIndex item) (reactions item).
Proof. reflexivity. Qed.

Lemma spread_same_todos (item : CanvasItem) :
  spread item (todosUpdate (todos item)) = item.
Proof. destruct item. reflexivity. Qed.



Lemma applied_map (g : TodoItem -> TodoItem) (item : CanvasItem) (n : nat) :
  Nat.iter n
    (applied (fun it => todosUpdate (option_map (map g) (todos it)))) item
  = spread item (todosUpdate (option_map (map (Nat.iter n g)) (todos item))).
Proof.
  induction n as [| n IH].
  - simpl. transitivity (spread item (todosUpdate (todos item))).
    + symmetry. apply spread_same_todos.
    + f_equal. f_equal. destruct (todos item) as [l |]; [| reflexivity].
      simpl. now rewrite map_id.
  - change (Nat.iter (S n) ?f item) with (f (Nat.iter n f item)).
    rewrite IH. unfold applied.
    assert (E : option_map (map g) (option_map (map (Nat.iter n g)) (todos item))
                = option_map (map (Nat.iter (S n) g)) (todos item)).
    { destruct (todos item) as [l |]; [| reflexivity].
      simpl. now rewrite map_map. }
    rewrite !spread_todos.
    cbn [todos item_id item_type item_x item_y width height content color
         textColor fontFamily fontWeight fontStyle opacity shapeType drawingData
         zIndex reactions].
    now rewrite E.
Qed.


(** X12.  Clicking the check box of a to-do entry twice leaves the item exactly as
    it was. *)
Theorem completion_toggles_back (todoId : string) (item : CanvasItem) :
  applied (handleTodoToggle todoId) (applied (handleTodoToggle todoId) item) = item.
Proof.
  change (Nat.iter 2 (applied (handleTodoToggle todoId)) item = item).
  unfold handleTodoToggle. rewrite applied_map.
  transitivity (spread item (todosUpdate (todos item)));
    [| apply spread_same_todos].
  f_equal. f_equal.
  destruct (todos item) as [l |]; [| reflexivity]. simpl. f_equal.
  rewrite <- (map_id l) at 2. apply map_ext. intros t.
  destruct (String.eqb (todo_id t) todoId) eqn:E; simpl.
  - repeat (rewrite E; simpl). rewrite negb_involutive. now destruct t.
  - repeat (rewrite E; simpl). reflexivity.
Qed.

(** X13.  Adding a to-do entry under an id no entry has yet, then deleting it, gives
    back the entries the item had; and adding always appends one entry, of low
    urgency and not completed, after the existing ones. *)
Theorem todo_add_delete (nowId : string) (item : CanvasItem) :
  ~ In nowId (map todo_id (todosOf item)) ->
  todosOf (applied (handleAddTodo nowId) item)
  = todosOf item ++ [mkTodoItem nowId "New Task" false low]
  /\ todosOf (applied (handleTodoDelete nowId) (applied (handleAddTodo nowId) item))
     = todosOf item.
Proof.
  intros Hfresh. split; [reflexivity |].
  unfold applied, handleTodoDelete, handleAddTodo, todosOf in *.
  rewrite !spread_todos. cbn [todos option_map orElse].
  rewrite filter_app. simpl. rewrite String.eqb_refl. simpl. rewrite app_nil_r.
  induction (orElse (todos item) []) as [| t l IH]; [reflexivity |].
  simpl in *. destruct (String.eqb (todo_id t) nowId) eqn:E.
  - apply String.eqb_eq in E. exfalso. apply Hfresh. now left.
  - simpl. f_equal. apply IH. tauto.
Qed.

(** ** Browser persistence *)

Lemma projectKey_recents (id : string) :
  String.eqb (projectKey id) RECENTS_KEY = false
  /\ String.eqb RECENTS_KEY (projectKey id) = false.
Proof. split; apply String.eqb_neq; discriminate. Qed.

Lemma projectKey_inj (a b : string) : projectKey a = projectKey b -> a = b.
Proof. unfold projectKey. simpl. intros H. now injection H. Qed.

Lemma projectKey_eqb (a b : string) :
  String.eqb (projectKey a) (projectKey b) = String.eqb a b.
Proof.
  destruct (String.eqb_spec a b) as [-> | Hne].
  - apply String.eqb_refl.
  - apply String.eqb_neq. intros H. apply Hne. now apply projectKey_inj.
Qed.

Lemma list_after_state (id : string) (st : AppState) (ls : LocalStorage) :
  listRecentProjects (setItem (projectKey id) (StoredState st) ls)
  = listRecentProjects ls.
Proof.
  unfold listRecentProjects, getItem, setItem.
  now rewrite (proj2 (projectKey_recents id)).
Qed.

Lemma list_after_recents (l : list ProjectMetadata) (ls : LocalStorage) :
  listRecentProjects (setItem RECENTS_KEY (StoredRecents l) ls) = l.
Proof. reflexivity. Qed.

Lemma stored_after_recents (id : string) (l : list ProjectMetadata)
    (ls : LocalStorage) :
  storedState id (setItem RECENTS_KEY (StoredRecents l) ls) = storedState id ls.
Proof.
  unfold storedState, getItem, setItem.
  now rewrite (proj1 (projectKey_recents id)).
Qed.


(** What [findIndex], [recents[index]] and [splice] find together. *)
Lemma findIndex_split (id : string) (l : list ProjectMetadata) :
  match findIndex id l with
  | Some n =>
      exists before m after,
        l = before ++ m :: after /\ project_id m = id
        /\ ~ In id (map project_id before)
        /\ nth_error l n = Some m /\ removeAt n l = before ++ after
  | None => ~ In id (map project_id l)
  end.
Proof.
  induction l as [| r l IH]; simpl; [tauto |].
  destruct (String.eqb (project_id r) id) eqn:E.
  - apply String.eqb_eq in E. exists [], r, l. simpl. tauto.
  - apply String.eqb_neq in E. destruct (findIndex id l) as [n |]; simpl.
    + destruct IH as (before & m & after & Hl & Hm & Hb & Hn & Hr).
      exists (r :: before), m, after. subst l. simpl.
      repeat split; try assumption; [tauto | now rewrite Hr].
    + tauto.
Qed.


Lemma saveProject_recents (id : string) (st : AppState) (now : Z)
    (ls : LocalStorage) :
  (~ In id (map project_id (listRecentProjects ls)) ->
   listRecentProjects (saveProject id st now ls) = listRecentProjects ls)
  /\ (In id (map project_id (listRecentProjects ls)) ->
      exists before m after,
        listRecentProjects ls = before ++ m :: after
        /\ project_id m = id
        /\ ~ In id (map project_id before)
        /\ listRecentProjects (saveProject id st now ls)
           = touch now m :: before ++ after).
Proof.
  unfold saveProject. rewrite list_after_state.
  pose proof (findIndex_split id (listRecentProjects ls)) as H.
  destruct (findIndex id (listRecentProjects ls)) as [n |].
  - destruct H as (before & m & after & Hl & Hm & Hb & Hn & Hr).
    rewrite Hn, list_after_recents, Hr. split.
    + intros Hno. exfalso. apply Hno. rewrite Hl, map_app, in_app_iff.
      right. left. exact Hm.
    + intros _. exists before, m, after. repeat split; assumption.
  - rewrite list_after_state. split; [reflexivity | contradiction].
Qed.


(** X15.  Saving a project that is in the recent list moves its first entry to the
    front with the new time of opening, and keeps every other entry, in the
    same order; saving a project that is not in the list leaves the list as
    it is. *)
Theorem save_moves_to_front (id : string) (st : AppState) (now : Z)
    (ls : LocalStorage) :
  (~ In id (map project_id (listRecentProjects ls)) ->
   listRecentProjects (saveProject id st now ls) = listRecentProjects ls)
  /\ (In id (map project_id (listRecentProjects ls)) ->
      exists before m after,
        listRecentProjects ls = before ++ m :: after
        /\ project_id m = id
        /\ ~ In id (map project_id before)
        /\ listRecentProjects (saveProject id st now ls)
           = touch now m :: before ++ after).
Proof. exact (saveProject_recents id st now ls). Qed.

(** X16.  After [deleteProject], loading the project fails, exporting it starts no
    download and it is no longer in the recent list; the other entries of the
    list are kept in order and the documents of the other projects are as
    they were. *)
Theorem delete_forgets (id : string) (now1 now2 now3 : Z) (ls : LocalStorage) :
  loadProject id now1 now2 now3 (deleteProject id ls) = None
  /\ exportProject id (deleteProject id ls) = false
  /\ listRecentProjects (deleteProject id ls)
     = filter (fun r => negb (String.eqb (project_id r) id)) (listRecentProjects ls)
  /\ ~ In id (map project_id (listRecentProjects (deleteProject id ls)))
  /\ forall id', id' <> id ->
       storedState id' (deleteProject id ls) = storedState id' ls.
Proof.
  assert (Hget : getItem (projectKey id) (deleteProject id ls) = None).
  { unfold deleteProject, getItem, setItem, removeItem.
    rewrite (proj1 (projectKey_recents id)). now rewrite String.eqb_refl. }
  assert (Hlist : listRecentProjects (removeItem (projectKey id) ls)
                  = listRecentProjects ls).
  { unfold listRecentProjects, getItem, removeItem.
    now rewrite (proj2 (projectKey_recents id)). }
  split; [unfold loadProject; now rewrite Hget |].
  split; [unfold exportProject; now rewrite Hget |].
  split; [unfold deleteProject; now rewrite list_after_recents, Hlist |].
  split.
  - unfold deleteProject. rewrite list_after_recents, Hlist.
    rewrite in_map_iff. intros (r & Hr & Hin). apply filter_In in Hin.
    destruct Hin as [_ Hne]. rewrite Hr, String.eqb_refl in Hne. discriminate.
  - intros id' Hne. unfold deleteProject. rewrite stored_after_recents.
    unfold storedState, getItem, removeItem. rewrite projectKey_eqb.
    apply String.eqb_neq in Hne. now rewrite Hne.
Qed.



Lemma NoDup_filter_ids (keep : ProjectMetadata -> bool) (l : list ProjectMetadata) :
  NoDup (map project_id l) -> NoDup (map project_id (filter keep l)).
Proof.
  induction l as [| r l IH]; intros Hnd; [constructor |].
  simpl in *. inversion Hnd as [| ? ? Hr Hl]; subst.
  destruct (keep r); simpl; [| now apply IH].
  constructor; [| now apply IH].
  rewrite in_map_iff. intros (x & Hx & Hxin). apply filter_In in Hxin.
  apply Hr. rewrite <- Hx. apply in_map. tauto.
Qed.

(** X19.  The ids of the recent list stay distinct: saving and deleting keep them
    so, and so does creating a project under an id the list does not hold. *)
Theorem recents_stay_distinct (id name : string) (st : AppState) (now now' : Z)
    (ls : LocalStorage) :
  NoDup (map project_id (listRecentProjects ls)) ->
  NoDup (map project_id (listRecentProjects (saveProject id st now ls)))
  /\ NoDup (map project_id (listRecentProjects (deleteProject id ls)))
  /\ (~ In id (map project_id (listRecentProjects ls)) ->
      NoDup (map project_id
               (listRecentProjects (fst (createProject id name now now' ls))))).
Proof.
  intros Hnd. split; [| split].
  - destruct (saveProject_recents id st now ls) as [Hout Hin].
    destruct (in_dec string_dec id (map project_id (listRecentProjects ls)))
      as [Hi | Hi].
    + destruct (Hin Hi) as (before & m & after & Hl & Hm & Hb & ->).
      rewrite Hl, map_app in Hnd. simpl in Hnd.
      apply NoDup_remove in Hnd. destruct Hnd as [Hnd Hnot].
      simpl. rewrite map_app. constructor; [exact Hnot | exact Hnd].
    + now rewrite (Hout Hi).
  - unfold deleteProject. rewrite list_after_recents.
    assert (Hlist : listRecentProjects (removeItem (projectKey id) ls)
                    = listRecentProjects ls).
    { unfold listRecentProjects, getItem, removeItem.
      now rewrite (proj2 (projectKey_recents id)). }
    rewrite Hlist. now apply NoDup_filter_ids.
  - intros Hfresh. unfold createProject. cbn [fst].
    rewrite list_after_recents, list_after_state. simpl.
    constructor; assumption.
Qed.

(** ** Opening and saving *)





(** ** A moved item follows the pointer *)

Lemma translate_total (sc : Q) (es : list MouseEvent) :
  ~ sc == 0 ->
  forall (start : Position) (i : CanvasItem),
    item_x (translate (deltas sc start es) i)
    == item_x i + (pos_x (lastPosition start es) - pos_x start) / sc
    /\ item_y (translate (deltas sc start es) i)
       == item_y i + (pos_y (lastPosition start es) - pos_y start) / sc
    /\ translate (deltas sc start es) i
       = set_xy i (item_x (translate (deltas sc start es) i))
                  (item_y (translate (deltas sc start es) i)).
Proof.
  intros Hsc. induction es as [| e es IH]; intros start i.
  - simpl. repeat split; try (field; assumption). now destruct i.
  - change (translate (deltas sc start (e :: es)) i)
      with (translate (deltas sc (pointer e) es)
              (set_xy i (item_x i + (clientX e - pos_x start) / sc)
                        (item_y i + (clientY e - pos_y start) / sc))).
    change (lastPosition start (e :: es)) with (lastPosition (pointer e) es).
    destruct (IH (pointer e)
                (set_xy i (item_x i + (clientX e - pos_x start) / sc)
                          (item_y i + (clientY e - pos_y start) / sc)))
      as (Hx & Hy & Hrest).
    split; [| split].
    + rewrite Hx. simpl. field. assumption.
    + rewrite Hy. simpl. field. assumption.
    + rewrite Hrest at 1. reflexivity.
Qed.

(** X23.  In a move gesture on an item that is not a shape, on a viewport of
    non-zero scale (pointer-down on its body, any run of pointer-moves), the
    item ends displaced by the pointer's displacement from the down-point to
    its last position, divided by the scale, with all its other fields
    unchanged; every item of another id is unchanged. *)
Theorem move_follows_pointer (e0 : MouseEvent) (S : CanvasItem)
    (es : list MouseEvent) (ed : Editor) :
  toolMode ed = tool_select ->
  item_id S <> ""%string ->
  find (fun i => String.eqb (item_id i) (item_id S)) (items (state ed)) = Some S ->
  item_type S <> shape ->
  ~ scale (state ed) == 0 ->
  exists ed',
    moves es (handleItemMouseDown e0 (item_id S) on_move ed) = Some ed'
    /\ Forall2 (fun i i' =>
                  if String.eqb (item_id i) (item_id S)
                  then i' = set_xy i (item_x i') (item_y i')
                       /\ item_x i'
                          == item_x i
                             + (pos_x (lastPosition (pointer e0) es) - clientX e0)
                               / scale (state ed)
                       /\ item_y i'
                          == item_y i
                             + (pos_y (lastPosition (pointer e0) es) - clientY e0)
                               / scale (state ed)
                  else i' = i)
               (items (state ed)) (items (state ed')).
Proof.
  intros Htool Hsid Hfind Htype Hsc.
  assert (Hm : moving (item_id S) [] (pointer e0)
                 (handleItemMouseDown e0 (item_id S) on_move ed)).
  { unfold handleItemMouseDown, moving. rewrite Htool. simpl.
    repeat split; try assumption.
    unfold childrenOf. rewrite Hfind.
    destruct (item_type S); try reflexivity. contradiction. }
  destruct (move_run (item_id S) [] es _ _ Hm) as (ed' & Hrun & Hits).
  exists ed'. split; [exact Hrun |]. rewrite Hits.
  assert (Hst : state (handleItemMouseDown e0 (item_id S) on_move ed)
                = set_selectedIds (state ed)
                    (if JS.includes (selectedIds (state ed)) (item_id S)
                     then selectedIds (state ed) else [item_id S])).
  { unfold handleItemMouseDown. rewrite Htool. reflexivity. }
  rewrite Hst. cbn [items scale set_selectedIds].
  apply Forall2_map_self. intros a Ha. unfold movesAlong. cbn [JS.includes existsb].
  rewrite orb_false_r.
  destruct (String.eqb (item_id a) (item_id S)); [| reflexivity].
  destruct (translate_total (scale (state ed)) es Hsc (pointer e0) a)
    as (Hx & Hy & Hrest).
  split; [exact Hrest | split; assumption].
Qed.

(** ** Where a new item lands *)

(** X24.  On a viewport of non-zero scale, [addItem] called with extras that set no
    position appends one item whose point 100 to the right of and 75 below
    its origin is shown at the centre of the window; the new item becomes the
    whole selection and the tool goes back to select. *)
Theorem addItem_centred (win : Window) (newId : string) (type : ItemType)
    (extras : PartialItem) (ed : Editor) :
  ~ scale (state ed) == 0 ->
  u_x extras = None -> u_y extras = None ->
  exists it,
    items (state (addItem win newId type extras ed)) = items (state ed) ++ [it]
    /\ pos_eq (worldToScreen (mkPosition (item_x it + 100) (item_y it + 75))
                 (state ed))
              (mkPosition (innerWidth win / 2) (innerHeight win / 2))
    /\ selectedIds (state (addItem win newId type extras ed)) = [item_id it]
    /\ toolMode (addItem win newId type extras ed) = tool_select.
Proof.
  intros Hsc Hx Hy. eexists. split; [reflexivity |].
  split; [| split; reflexivity].
  unfold pos_eq, worldToScreen, newItemOf. cbn [pos_x pos_y].
  destruct (itemTypeEqb type todo); simpl; rewrite Hx, Hy; simpl;
    split; field; assumption.
Qed.

(** ** The further handlers on the sample board *)

Lemma updateItem_applied (handler : CanvasItem -> PartialItem) (item : CanvasItem)
    (ed : Editor) :
  NoDup (map item_id (items (state ed))) ->
  In item (items (state ed)) ->
  items (state (updateItem (item_id item) (handler item) ed))
  = map (fun i => if String.eqb (item_id i) (item_id item)
                  then applied handler i else i)
        (items (state ed)).
Proof.
  intros Hnd Hin. rewrite updateItem_items. apply map_ext_in. intros i Hi.
  destruct (String.eqb (item_id i) (item_id item)) eqn:E; [| reflexivity].
  apply String.eqb_eq in E.
  now rewrite (NoDup_map_inj item_id _ i item Hnd Hi Hin E).
Qed.


Lemma pan_sample :
  exists ed1,
    moves [click 120 110; click 90 140]
      (handleMouseDown "x" (click 100 100) handTool) = Some ed1
    /\ let ed' := handleMouseUp "k" (1 # 2) (click 90 140) ed1 in
       pos_x (pan (state ed'))
       == 10 + (pos_x (lastPosition (pointer (click 100 100))
                         [click 120 110; click 90 140]) - 100)
       /\ pos_y (pan (state ed'))
          == 20 + (pos_y (lastPosition (pointer (click 100 100))
                            [click 120 110; click 90 140]) - 100)
       /\ items (state ed') = sampleItems
       /\ connections (state ed') = sampleConnections
       /\ scale (state ed') = 2
       /\ selectedIds (state ed') = ["a"%string]
       /\ dragMode ed' = drag_none.
Proof.
  apply (pan_gesture "x" "k" (1 # 2) (click 100 100) (click 90 140)
           [click 120 110; click 90 140] handTool).
  left. reflexivity.
Defined.

Lemma rubber_band_sample :
  exists ed1,
    moves [click 400 300]
      (handleMouseDown "x" (click 50 60) sampleEditor) = Some ed1
    /\ let ed' := handleMouseUp "k" (1 # 2) (click 400 300) ed1 in
       let a := screenToWorld (pointer (click 50 60)) sampleState in
       let b := screenToWorld (lastPosition (pointer (click 50 60)) [click 400 300])
                  sampleState in
       ([click 400 300] = [] -> selectedIds (state ed') = [])
       /\ ([click 400 300] <> [] ->
           forall id, In id (selectedIds (state ed'))
             <-> exists i, In i sampleItems /\ item_id i = id
                           /\ centreWithin a b i)
       /\ selectionBox (state ed') = None
       /\ items (state ed') = sampleItems
       /\ connections (state ed') = sampleConnections
       /\ pan (state ed') = pan sampleState
       /\ scale (state ed') = scale sampleState
       /\ dragMode ed' = drag_none.
Proof.
  apply (rubber_band "x" "k" (1 # 2) (click 50 60) (click 400 300)
           [click 400 300] sampleEditor).
  - reflexivity.
  - reflexivity.
  - reflexivity.
  - discriminate.
Defined.


Lemma layering_sample :
  Forall2 (fun i i' =>
             if String.eqb (item_id i) "a"
             then i' = spread i (zUpdate (zIndex i')) /\ item_id i' = "a"%string
                  /\ aboveAll (zIndex i')
                       (filter (fun j => negb (String.eqb (item_id j) "a"))
                          (items (state (bringToFront sampleEditor))))
             else i' = i)
          sampleItems (items (state (bringToFront sampleEditor)))
  /\ Forall2 (fun i i' =>
                if String.eqb (item_id i) "a"
                then i' = spread i (zUpdate (zIndex i')) /\ item_id i' = "a"%string
                     /\ belowAll (zIndex i')
                          (filter (fun j => negb (String.eqb (item_id j) "a"))
                             (items (state (sendToBack sampleEditor))))
                else i' = i)
             sampleItems (items (state (sendToBack sampleEditor))).
Proof.
  apply (layering sampleEditor (plainItem "a" text 50 50 100 100 1)).
  reflexivity.
Defined.

Lemma zoom_sample :
  scaleInRange (state (zooms sampleZoom
                         [byZoomIn; byWheel (mkWheelEvent (-100) 200 150); byZoomOut]
                         sampleEditor))
  /\ ~ scale (state (zooms sampleZoom
                       [byZoomIn; byWheel (mkWheelEvent (-100) 200 150); byZoomOut]
                       sampleEditor)) == 0
  /\ items (state (zooms sampleZoom
                     [byZoomIn; byWheel (mkWheelEvent (-100) 200 150); byZoomOut]
                     sampleEditor)) = sampleItems
  /\ connections (state (zooms sampleZoom
                           [byZoomIn; byWheel (mkWheelEvent (-100) 200 150); byZoomOut]
                           sampleEditor)) = sampleConnections
  /\ selectedIds (state (zooms sampleZoom
                           [byZoomIn; byWheel (mkWheelEvent (-100) 200 150); byZoomOut]
                           sampleEditor)) = ["a"%string].
Proof.
  apply (zoom_stays_in_range sampleZoom
           [byZoomIn; byWheel (mkWheelEvent (-100) 200 150); byZoomOut] sampleEditor).
  split; [discriminate | discriminate].
Defined.

Lemma stroke_in_box_sample :
  exists ed' it,
    moves strokeMoves (handleMouseDown "d1" (click 100 100) emptyPen) = Some ed'
    /\ items (state ed') = [] ++ [it]
    /\ Forall (withinBox it) (strokePoints it)
    /\ (strokeMoves = [] -> width it = 0 /\ height it = 0)
    /\ (strokeMoves <> [] -> 0 < width it /\ 0 < height it).
Proof.
  apply (stroke_in_box "d1" (click 100 100) strokeMoves emptyPen).
  - reflexivity.
  - discriminate.
  - intros [].
  - discriminate.
Defined.

Lemma todo_sample :
  todosOf (applied (handleAddTodo "1700000000000") sampleTodo)
  = defaultTodos ++ [mkTodoItem "1700000000000" "New Task" false low]
  /\ todosOf (applied (handleTodoDelete "1700000000000")
                (applied (handleAddTodo "1700000000000") sampleTodo))
     = defaultTodos.
Proof.
  apply (todo_add_delete "1700000000000" sampleTodo).
  simpl. intros [H | [H | []]]; discriminate H.
Defined.


Lemma recents_distinct_sample :
  NoDup (map project_id
           (listRecentProjects
              (saveProject "p2" sampleState 9
                 (fst (createProject "p1" "Board" 1 2 emptyStorage)))))
  /\ NoDup (map project_id
              (listRecentProjects
                 (deleteProject "p2"
                    (fst (createProject "p1" "Board" 1 2 emptyStorage)))))
  /\ (~ In "p2"%string
        (map project_id
           (listRecentProjects (fst (createProject "p1" "Board" 1 2 emptyStorage)))) ->
      NoDup (map project_id
               (listRecentProjects
                  (fst (createProject "p2" "Again" 9 3
                          (fst (createProject "p1" "Board" 1 2 emptyStorage))))))).
Proof.
  apply (recents_stay_distinct "p2" "Again" sampleState 9 3
           (fst (createProject "p1" "Board" 1 2 emptyStorage))).
  simpl. constructor; [intros [] | constructor].
Defined.



Lemma move_follows_sample :
  exists ed',
    moves [click 120 110; click 140 90]
      (handleItemMouseDown (click 100 100) "a" on_move sampleEditor) = Some ed'
    /\ Forall2 (fun i i' =>
                  if String.eqb (item_id i) "a"
                  then i' = set_xy i (item_x i') (item_y i')
                       /\ item_x i'
                          == item_x i
                             + (pos_x (lastPosition (pointer (click 100 100))
                                         [click 120 110; click 140 90]) - 100) / 2
                       /\ item_y i'
                          == item_y i
                             + (pos_y (lastPosition (pointer (click 100 100))
                                         [click 120 110; click 140 90]) - 100) / 2
                  else i' = i)
               sampleItems (items (state ed')).
Proof.
  apply (move_follows_pointer (click 100 100) (plainItem "a" text 50 50 100 100 1)
           [click 120 110; click 140 90] sampleEditor).
  - reflexivity.
  - discriminate.
  - reflexivity.
  - discriminate.
  - discriminate.
Defined.

Lemma addItem_centred_sample :
  exists it,
    items (state (addItem sampleWindow "n" text noUpdates sampleEditor))
    = sampleItems ++ [it]
    /\ pos_eq (worldToScreen (mkPosition (item_x it + 100) (item_y it + 75))
                 sampleState)
              (mkPosition (1280 / 2) (720 / 2))
    /\ selectedIds (state (addItem sampleWindow "n" text noUpdates sampleEditor))
       = [item_id it]
    /\ toolMode (addItem sampleWindow "n" text noUpdates sampleEditor) = tool_select.
Proof.
  apply (addItem_centred sampleWindow "n" text noUpdates sampleEditor).
  - discriminate.
  - reflexivity.
  - reflexivity.
Defined.
